(** * KudagonAzureAIClient: a shallow embedding of [src/index.ts]

    The client is a mutable object whose methods either run synchronously on
    the instance fields ([add_message], [add_file], [set_options], [clear],
    [raw_response], [response]) or sequence calls to a remote service
    ([fetch] and its private helpers).  The embedding keeps that shape:

    - JavaScript values that reach the client untyped at run time (message
      fields, JSON bodies of responses, identifiers handed back by the
      remote) are terms of [value], with the language's truthiness;
    - a method that can throw returns a [Completion];
    - asynchronous methods are computations in a state-and-exception monad
      over a [World]: the client instance plus the history of everything the
      client did to the outside (requests, sleeps, file writes);
    - the remote service and the platform built-ins are parameters. *)

From Stdlib Require Import QArith Ascii String.
From stdpp Require Import base strings list gmap pretty.

Open Scope string_scope.
Open Scope list_scope.

(** ** JavaScript values *)

#[local] Set Warnings "-register-all".

Inductive value :=
| VUndefined
| VNull
| VBool (b : bool)
| VNum (q : Q)
| VStr (s : string)
| VArr (items : list value)
| VObj (props : list (string * value)).

(** [!!v] of the language: [undefined], [null], [false], [0] and [""] are
    falsy, everything else (every array and object included) is truthy. *)
Definition truthy (v : value) : bool :=
  match v with
  | VUndefined | VNull => false
  | VBool b => b
  | VNum q => negb (Qeq_bool q 0)
  | VStr s => negb (String.eqb s "")
  | VArr _ | VObj _ => true
  end.

(** [v === "lit"] against a string literal. *)
Definition is_str (lit : string) (v : value) : bool :=
  match v with
  | VStr s => String.eqb s lit
  | _ => false
  end.

(** [a ?? b] *)
Definition nullish (a b : value) : value :=
  match a with
  | VUndefined | VNull => b
  | _ => a
  end.

(** [a || b] *)
Definition or_else (a b : value) : value := if truthy a then a else b.

Fixpoint assoc (k : string) (ps : list (string * value)) : value :=
  match ps with
  | [] => VUndefined
  | (k', v) :: rest => if String.eqb k k' then v else assoc k rest
  end.

(** [v?.k] for the property names the source reads ([id], [status],
    [last_error], [message], [data], [role], [content], [text], [value]):
    none of them is defined on a primitive wrapper or on arrays, so only
    objects can answer with something else than [undefined]. *)
Definition opt_prop (v : value) (k : string) : value :=
  match v with
  | VObj ps => assoc k ps
  | _ => VUndefined
  end.

(** [v?.[0]] *)
Definition opt_first (v : value) : value :=
  match v with
  | VArr (x :: _) => x
  | VStr (String c _) => VStr (String c EmptyString)
  | VObj ps => assoc "0" ps
  | _ => VUndefined
  end.

(** ** Exceptions *)

Record JsError := mkError { name : string; message : string }.

(** [new Error(msg)] *)
Definition Error (msg : string) : JsError := mkError "Error" msg.

Inductive Completion (A : Type) :=
| Return (a : A)
| Throw (e : JsError).
Arguments Return {A} a.
Arguments Throw {A} e.

Definition is_throw {A} (r : Completion A) : bool :=
  match r with Throw _ => true | Return _ => false end.

(** [v.k]: reading a property of [undefined] or [null] throws. *)
Definition prop (v : value) (k : string) : Completion value :=
  match v with
  | VUndefined =>
      Throw (mkError "TypeError"
               ("Cannot read properties of undefined (reading '" ++ k ++ "')"))
  | VNull =>
      Throw (mkError "TypeError"
               ("Cannot read properties of null (reading '" ++ k ++ "')"))
  | _ => Return (opt_prop v k)
  end.

(** ** Types / interfaces of the source *)

Record AzureAIConfig := {
  cfg_endpoint : string;
  cfg_apiKey : string;
  cfg_deploymentName : string;
  cfg_apiVersion : option string;
  cfg_timeout : option Q;
  cfg_initMsg : option string
}.

(** [FileConfig]: an absent optional field is [None] ([undefined] for
    [raw_file], which is [string | object]). *)
Record FileConfig := {
  file_path : option string;
  raw_file : value;
  file_name : option string;
  file_type : option string
}.

(** A [Message] object.  The store keeps the caller's object itself
    ([this.messages.push(message)]), and the thread builder compares message
    objects with [===], so an object carries its identity [ref] next to its
    two fields.  The fields are what the caller put there at run time, not
    what the type annotation promises; callers are taken not to write to a
    message object after they have handed it over. *)
Record Message := {
  ref : nat;
  role : value;
  content : value
}.

(** [m1 === m2] on message objects. *)
Definition same_object (m1 m2 : Message) : bool := Nat.eqb (ref m1) (ref m2).

Record InternalFile := {
  path : string;
  type : string;
  file_content : value;
  rawContent : value
}.

Record UploadedFile := {
  up_id : value;
  up_path : string;
  up_type : string
}.

Record CompletionChoice := {
  index : Z;
  message_role : value;
  message_content : value;
  finish_reason : string
}.

Record CompletionResponse := {
  id : value;
  object : string;
  created : Z;
  model : string;
  choices : list CompletionChoice
}.

Record ConversationState := {
  st_messages : list Message;
  st_files : list (string * string);
  st_options : gmap string value;
  st_assistantId : value;
  st_threadId : value
}.

(** The instance fields of [KudagonAzureAIClient]. *)
Record Client := {
  endpoint : string;
  apiKey : string;
  deploymentName : string;
  apiVersion : string;
  timeout : Q;
  messages : list Message;
  files : list InternalFile;
  options : gmap string value;
  assistantId : value;
  threadId : value;
  initMsg : string;
  _lastResponse : option CompletionResponse
}.

Definition set_messages (x : list Message) (c : Client) : Client :=
  {| endpoint := endpoint c; apiKey := apiKey c; deploymentName := deploymentName c;
     apiVersion := apiVersion c; timeout := timeout c; messages := x;
     files := files c; options := options c; assistantId := assistantId c;
     threadId := threadId c; initMsg := initMsg c;
     _lastResponse := _lastResponse c |}.

Definition set_files (x : list InternalFile) (c : Client) : Client :=
  {| endpoint := endpoint c; apiKey := apiKey c; deploymentName := deploymentName c;
     apiVersion := apiVersion c; timeout := timeout c; messages := messages c;
     files := x; options := options c; assistantId := assistantId c;
     threadId := threadId c; initMsg := initMsg c;
     _lastResponse := _lastResponse c |}.

Definition set_options_field (x : gmap string value) (c : Client) : Client :=
  {| endpoint := endpoint c; apiKey := apiKey c; deploymentName := deploymentName c;
     apiVersion := apiVersion c; timeout := timeout c; messages := messages c;
     files := files c; options := x; assistantId := assistantId c;
     threadId := threadId c; initMsg := initMsg c;
     _lastResponse := _lastResponse c |}.

Definition set_assistantId (x : value) (c : Client) : Client :=
  {| endpoint := endpoint c; apiKey := apiKey c; deploymentName := deploymentName c;
     apiVersion := apiVersion c; timeout := timeout c; messages := messages c;
     files := files c; options := options c; assistantId := x;
     threadId := threadId c; initMsg := initMsg c;
     _lastResponse := _lastResponse c |}.

Definition set_threadId (x : value) (c : Client) : Client :=
  {| endpoint := endpoint c; apiKey := apiKey c; deploymentName := deploymentName c;
     apiVersion := apiVersion c; timeout := timeout c; messages := messages c;
     files := files c; options := options c; assistantId := assistantId c;
     threadId := x; initMsg := initMsg c;
     _lastResponse := _lastResponse c |}.

Definition set_lastResponse (x : option CompletionResponse) (c : Client) : Client :=
  {| endpoint := endpoint c; apiKey := apiKey c; deploymentName := deploymentName c;
     apiVersion := apiVersion c; timeout := timeout c; messages := messages c;
     files := files c; options := options c; assistantId := assistantId c;
     threadId := threadId c; initMsg := initMsg c;
     _lastResponse := x |}.

(** ** Constructor *)

(** [s.replace(/\/$/, "")]: drop one trailing slash. *)
Fixpoint strip_trailing_slash (s : string) : string :=
  match s with
  | EmptyString => EmptyString
  | String c rest =>
      match rest with
      | EmptyString => if Ascii.eqb c "/"%char then EmptyString else s
      | _ => String c (strip_trailing_slash rest)
      end
  end.

(** [x || dflt] on an optional string *)
Definition str_or (x : option string) (dflt : string) : string :=
  match x with
  | Some s => if String.eqb s "" then dflt else s
  | None => dflt
  end.

Definition default_options : gmap string value :=
  <["max_tokens" := VNum 4000]> (<["temperature" := VNum 0.7]> ∅).

(** [new KudagonAzureAIClient(config)], [_validateConfig] inlined at its
    single call site. *)
Definition new_client (config : AzureAIConfig) : Completion Client :=
  if String.eqb (cfg_endpoint config) "" then Throw (Error "Endpoint is required")
  else if String.eqb (cfg_apiKey config) "" then Throw (Error "API key is required")
  else if String.eqb (cfg_deploymentName config) "" then
    Throw (Error "Deployment name is required")
  else
    Return {| endpoint := strip_trailing_slash (cfg_endpoint config);
              apiKey := cfg_apiKey config;
              deploymentName := cfg_deploymentName config;
              apiVersion := str_or (cfg_apiVersion config) "2024-08-01-preview";
              timeout := default 30000%Q (cfg_timeout config);
              messages := [];
              files := [];
              options := default_options;
              assistantId := VNull;
              threadId := VNull;
              initMsg := str_or (cfg_initMsg config) "You are a helpful assistant.";
              _lastResponse := None |}.

(** ** Synchronous methods of the store *)

(** The argument of [add_message]: one message object, or an array of the
    caller's own.  The array of the store itself, which [get_state]
    exposes, is the case [Store] of [add_message_iter] below. *)
Inductive MessageArg :=
| One (m : Message)
| Many (ms : list Message).

(** [Array.isArray(messages) ? messages : [messages]] *)
Definition messageArray (a : MessageArg) : list Message :=
  match a with
  | One m => [m]
  | Many ms => ms
  end.

Definition err_message_fields : JsError :=
  Error "Each message must have role and content properties".

Definition err_message_role : JsError :=
  Error "Message role must be user, assistant, or system".

(** [["user", "assistant", "system"].includes(r)] *)
Definition role_included (r : value) : bool :=
  is_str "user" r || is_str "assistant" r || is_str "system" r.

(** The body of the [for ... of] loop of [add_message], iterated over the
    remaining elements: each element is checked and pushed in turn, and a
    [throw] leaves the loop with the pushes made so far in place. *)
Fixpoint add_message_loop (ms : list Message) (c : Client)
  : Completion unit * Client :=
  match ms with
  | [] => (Return tt, c)
  | m :: rest =>
      if negb (truthy (role m)) || negb (truthy (content m)) then
        (Throw err_message_fields, c)
      else if negb (role_included (role m)) then
        (Throw err_message_role, c)
      else add_message_loop rest (set_messages (messages c ++ [m]) c)
  end.

Definition add_message (a : MessageArg) (c : Client) : Completion unit * Client :=
  add_message_loop (messageArray a) c.

(** The array the loop of [add_message] walks: an array of the caller's
    own, or the array of the store itself
    ([client.add_message(client.get_state().messages)]). *)
Inductive ArgArray :=
| Own (ms : list Message)
| Store.

(** [messageArray[i]] as the array iterator of [for ... of] reads it: from
    the array as it is at that moment, pushes included when the array is
    the store's. *)
Definition arg_lookup (arr : ArgArray) (c : Client) (i : nat) : option Message :=
  match arr with
  | Own ms => ms !! i
  | Store => messages c !! i
  end.

(** The [for ... of] loop of [add_message] as the array iterator runs it,
    from index [i]: the iterator ends when [i] has reached the current
    length of the array.  [None]: the loop is still running after [fuel]
    iterations. *)
Fixpoint add_message_iter (fuel i : nat) (arr : ArgArray) (c : Client)
  : option (Completion unit * Client) :=
  match fuel with
  | O => None
  | S fuel' =>
      match arg_lookup arr c i with
      | None => Some (Return tt, c)
      | Some m =>
          if negb (truthy (role m)) || negb (truthy (content m)) then
            Some (Throw err_message_fields, c)
          else if negb (role_included (role m)) then
            Some (Throw err_message_role, c)
          else add_message_iter fuel' (S i) arr (set_messages (messages c ++ [m]) c)
      end
  end.

(** [{ ...this.options, ...options }]: the keys of the argument win. *)
Definition set_options (o : gmap string value) (c : Client) : Client :=
  set_options_field (o ∪ options c) c.

Definition clear (c : Client) : Client :=
  set_threadId VNull (set_assistantId VNull (set_files [] (set_messages [] c))).

Definition get_state (c : Client) : ConversationState :=
  {| st_messages := messages c;
     st_files := map (fun f => (path f, type f)) (files c);
     st_options := options c;
     st_assistantId := assistantId c;
     st_threadId := threadId c |}.

Definition err_no_response : JsError :=
  Error "No response available. Call fetch() first.".

Definition raw_response (c : Client) : Completion CompletionResponse :=
  match _lastResponse c with
  | None => Throw err_no_response
  | Some r => Return r
  end.

(** [this._lastResponse?.choices?.[0]?.message?.content ?? ""] *)
Definition response (c : Client) : Completion value :=
  match _lastResponse c with
  | None => Throw err_no_response
  | Some r =>
      Return (match choices r with
              | ch :: _ => nullish (message_content ch) (VStr "")
              | [] => VStr ""
              end)
  end.

(** ** The outside world *)

(** A call of [_fetch], with the URL and options reduced to the endpoint
    addressed and the data the client puts in path and body; the API key,
    endpoint and API version are fixed per instance. *)
Record ThreadMessage := {
  tm_role : value;
  tm_content : value;
  tm_attachments : option (list value)   (* the [file_id]s, when set *)
}.

Inductive request :=
| UploadFile (filename contentStr mime : string)      (* POST   /openai/files *)
| CreateAssistant (mdl nm : string) (instructions temperature : value)
                                                      (* POST   /openai/assistants *)
| CreateThread (threadMessages : list ThreadMessage)  (* POST   /openai/threads *)
| CreateRun (thread assistant_id : value)             (* POST   /openai/threads/T/runs *)
| GetRun (thread runId : value)                       (* GET    /openai/threads/T/runs/R *)
| ListMessages (thread : value)                       (* GET    /openai/threads/T/messages?limit=1 *)
| DeleteFile (fileId : value)                         (* DELETE /openai/files/F *)
| DeleteAssistant (assistant_id : value)              (* DELETE /openai/assistants/A *)
| ListFiles.                                          (* GET    /openai/files *)

Inductive event :=
| Fetch (r : request)                 (* [_fetch(url, init)] was called *)
| Sleep (ms : Z)                      (* a [setTimeout] wait was awaited *)
| WriteFile (fname data : string).    (* [writeFileSync] was called *)

(** What an awaited [_fetch] resolves to.  [text] and [json] are what
    [await response.text()] and [await response.json()] give. *)
Record Response := {
  ok : bool;
  status : Z;
  statusText : string;
  text : string;
  json : Completion value
}.

(** Everything the source takes from the language run time, Node and the
    network.  The remote and the clock answer as a function of what the
    client has done so far, which covers every deterministic replay of an
    execution. *)
Class Platform := {
  JSON_parse : string -> Completion value;
  JSON_stringify : value -> string;            (* [JSON.stringify(v)] *)
  JSON_stringify_indent : value -> string;     (* [JSON.stringify(v, null, 2)] *)
  String_of : value -> string;                 (* [String(v)] of a non-string *)
  extname : string -> string;
  basename : string -> string;
  toLowerCase : string -> string;
  existsSync : string -> bool;
  readFileSync : string -> Completion string;
  writeFileSync : list event -> string -> string -> Completion unit;
  _fetch : list event -> request -> Completion Response;
  Date_now : list event -> Z
}.

Record World := {
  client : Client;
  history : list event
}.

(** ** Asynchronous methods: state and exceptions over a [World] *)

Definition Async (A : Type) : Type := World -> Completion A * World.

Definition ret {A} (a : A) : Async A := fun w => (Return a, w).

Definition throw {A} (e : JsError) : Async A := fun w => (Throw e, w).

Definition bind {A B} (m : Async A) (k : A -> Async B) : Async B :=
  fun w =>
    match m w with
    | (Return a, w') => k a w'
    | (Throw e, w') => (Throw e, w')
    end.

(** [try { m } catch (error) { h error }] *)
Definition try_catch {A} (m : Async A) (h : JsError -> Async A) : Async A :=
  fun w =>
    match m w with
    | (Return a, w') => (Return a, w')
    | (Throw e, w') => h e w'
    end.

Declare Scope async_scope.
Delimit Scope async_scope with async.
Notation "'let*' x ':=' m 'in' k" := (bind m (fun x => k))
  (at level 10, x name, m at level 100, k at level 200) : async_scope.
Notation "'await' m 'in' k" := (bind m (fun _ => k))
  (at level 10, m at level 100, k at level 200) : async_scope.

(** A synchronous expression that may throw, inside an async body. *)
Definition lift {A} (r : Completion A) : Async A := fun w => (r, w).

Definition this : Async Client := fun w => (Return (client w), w).

Definition with_client (f : Client -> Client) (w : World) : World :=
  {| client := f (client w); history := history w |}.

Definition log (e : event) (w : World) : World :=
  {| client := client w; history := history w ++ [e] |}.

(** An assignment to instance fields. *)
Definition update (f : Client -> Client) : Async unit :=
  fun w => (Return tt, with_client f w).

(** [items.join(sep)] on strings *)
Fixpoint join (sep : string) (items : list string) : string :=
  match items with
  | [] => ""
  | [x] => x
  | x :: rest => x ++ sep ++ join sep rest
  end.

(** [`${v}`] *)
Definition template `{Platform} (v : value) : string :=
  match v with
  | VStr s => s
  | _ => String_of v
  end.

Section Methods.
Context `{Platform}.
Local Open Scope async_scope.

(** [await _fetch(...)]: the call is recorded, the remote answers. *)
Definition call (r : request) : Async Response :=
  fun w => (_fetch (history w) r, log (Fetch r) w).

(** [await new Promise((resolve) => setTimeout(resolve, ms))] *)
Definition sleep (ms : Z) : Async unit :=
  fun w => (Return tt, log (Sleep ms) w).

(** A promise whose rejection is swallowed and which nobody awaits
    ([p.catch(() => {})]): an async method runs synchronously up to its
    first [await], so its [_fetch] call is made; nothing of the answer
    comes back. *)
Definition detached (r : request) : Async unit :=
  fun w => (Return tt, log (Fetch r) w).

Definition http_error (what : string) (r : Response) : JsError :=
  Error (what ++ " (" ++ template (VNum (inject_Z (status r))) ++ "): " ++ text r).

(** *** File staging *)

Definition err_invalid_json (parseError : JsError) : JsError :=
  Error ("Invalid JSON content: " ++ message parseError).

(** The first [if / else if / else] of [add_file]: where the content
    comes from, and the kind. *)
Definition add_file_source (fileConfig : FileConfig)
  : Completion (string * string * value) :=
  if truthy (raw_file fileConfig) then
    match file_name fileConfig with
    | None => Throw (Error "file_name is required when using raw_file")
    | Some fname =>
        if String.eqb fname "" then
          Throw (Error "file_name is required when using raw_file")
        else Return (fname, str_or (file_type fileConfig) "text", raw_file fileConfig)
    end
  else
    match file_path fileConfig with
    | None => Throw (Error "Either raw_file or file_path must be provided")
    | Some pathStr =>
        if String.eqb pathStr "" then
          Throw (Error "Either raw_file or file_path must be provided")
        else if negb (existsSync pathStr) then
          Throw (Error ("File not found: " ++ pathStr))
        else
          match readFileSync pathStr with
          | Throw e => Throw e
          | Return rawContent =>
              let inferred :=
                let ext := toLowerCase (extname pathStr) in
                if String.eqb ext ".json" then "json"
                else if String.eqb ext ".txt" then "text"
                else "text" in
              Return (pathStr, str_or (file_type fileConfig) inferred, VStr rawContent)
          end
    end.

(** The [switch (type)] of [add_file]. *)
Definition add_file_content (type : string) (rawContent : value)
  : Completion value :=
  if String.eqb type "json" then
    match rawContent with
    | VStr s =>
        match JSON_parse s with
        | Return v => Return v
        | Throw parseError => Throw (err_invalid_json parseError)
        end
    | _ => Return rawContent
    end
  else Return rawContent.

Definition add_file (fileConfig : FileConfig) (c : Client)
  : Completion unit * Client :=
  match add_file_source fileConfig with
  | Throw e => (Throw e, c)
  | Return (pathStr, type, rawContent) =>
      match add_file_content type rawContent with
      | Throw e => (Throw e, c)
      | Return content =>
          (Return tt,
           set_files (files c ++ [{| path := pathStr; type := type;
                                     file_content := content;
                                     rawContent := rawContent |}]) c)
      end
  end.

(** *** Remote resource orchestration *)

(** [contentStr] of [_uploadFiles] *)
Definition upload_contentStr (file : InternalFile) : string :=
  if String.eqb (type file) "json" then
    match file_content file with
    | VStr s => s
    | v => JSON_stringify_indent v
    end
  else
    match rawContent file with
    | VStr s => s
    | v => String_of v
    end.

Definition upload_request (file : InternalFile) : request :=
  UploadFile (basename (path file)) (upload_contentStr file)
    (if String.eqb (type file) "json" then "application/json" else "text/plain").

(** The [for ... of] loop of [_uploadFiles] over the files still to send. *)
Fixpoint _uploadFiles_loop (todo : list InternalFile)
    (uploadedFiles : list UploadedFile) : Async (list UploadedFile) :=
  match todo with
  | [] => ret uploadedFiles
  | file :: rest =>
      let* response := call (upload_request file) in
      if negb (ok response) then throw (http_error "File upload failed" response)
      else
        let* fileData := lift (json response) in
        let* fid := lift (prop fileData "id") in
        _uploadFiles_loop rest
          (uploadedFiles ++ [{| up_id := fid; up_path := path file;
                                up_type := type file |}])
  end.

Definition _uploadFiles : Async (list UploadedFile) :=
  let* c := this in
  _uploadFiles_loop (files c) [].

Definition has_role (r : string) (m : Message) : bool := is_str r (role m).

Definition default_instructions : value :=
  VStr "You are a helpful assistant that can analyze files and answer questions.".

Definition _getOrCreateAssistant : Async value :=
  let* c := this in
  if truthy (assistantId c) then ret (assistantId c)
  else
    let instructions :=
      match List.find (has_role "system") (messages c) with
      | Some systemMessage => content systemMessage
      | None => default_instructions
      end in
    let* response :=
      call (CreateAssistant (deploymentName c) "File Analysis Assistant"
              instructions (default VUndefined (options c !! "temperature"))) in
    if negb (ok response) then throw (http_error "Assistant creation failed" response)
    else
      let* assistant := lift (json response) in
      let* aid := lift (prop assistant "id") in
      await update (set_assistantId aid) in
      ret aid.

(** [msg === this.messages.find((m) => m.role === "user")] *)
Definition is_first_user (msgs : list Message) (msg : Message) : bool :=
  match List.find (has_role "user") msgs with
  | Some m => same_object msg m
  | None => false
  end.

(** The [filter(...).map(...)] that builds [threadMessages]. *)
Definition threadMessages (msgs : list Message)
    (uploadedFiles : list UploadedFile) : list ThreadMessage :=
  List.map
    (fun msg =>
       {| tm_role := role msg;
          tm_content := content msg;
          tm_attachments :=
            if has_role "user" msg
               && (0 <? length uploadedFiles)%nat
               && is_first_user msgs msg
            then Some (List.map up_id uploadedFiles)
            else None |})
    (List.filter (fun msg => negb (has_role "system" msg)) msgs).

Definition _getOrCreateThread (uploadedFiles : list UploadedFile) : Async value :=
  let* c := this in
  if truthy (threadId c) then ret (threadId c)
  else
    let* response := call (CreateThread (threadMessages (messages c) uploadedFiles)) in
    if negb (ok response) then throw (http_error "Thread creation failed" response)
    else
      let* thread := lift (json response) in
      let* tid := lift (prop thread "id") in
      await update (set_threadId tid) in
      ret tid.

Definition maxAttempts : nat := 60.

Definition err_timed_out : JsError := Error "Run timed out after 5 minutes".

(** [["failed", "cancelled", "expired"].includes(status)] *)
Definition failure_status (st : value) : bool :=
  is_str "failed" st || is_str "cancelled" st || is_str "expired" st.

(** [`Run ${run.status}: ${run.last_error?.message || "Unknown error"}`] *)
Definition err_run (run : value) : JsError :=
  Error ("Run " ++ template (opt_prop run "status") ++ ": "
         ++ template (or_else (opt_prop (opt_prop run "last_error") "message")
                              (VStr "Unknown error"))).

(** The [while (attempts < maxAttempts)] loop of [_waitForRunCompletion],
    by the number [maxAttempts - attempts] of iterations still allowed:
    [attempts] only changes by the [attempts++] that ends an iteration. *)
Fixpoint poll (left : nat) (runId : value) : Async value :=
  match left with
  | O => throw err_timed_out
  | S left' =>
      let* c := this in
      let* response := call (GetRun (threadId c) runId) in
      if negb (ok response) then
        throw (Error ("Status check failed: " ++ statusText response))
      else
        let* run := lift (json response) in
        let* st := lift (prop run "status") in
        if is_str "completed" st then ret run
        else if failure_status st then throw (err_run run)
        else
          await sleep 5000 in
          poll left' runId
  end.

Definition _waitForRunCompletion (runId : value) : Async value :=
  poll maxAttempts runId.

Definition _runAssistant : Async value :=
  let* c := this in
  let* response := call (CreateRun (threadId c) (assistantId c)) in
  if negb (ok response) then throw (http_error "Run creation failed" response)
  else
    let* run := lift (json response) in
    let* rid := lift (prop run "id") in
    _waitForRunCompletion rid.

Definition _getMessages : Async value :=
  let* c := this in
  let* response := call (ListMessages (threadId c)) in
  if negb (ok response) then
    throw (Error ("Failed to get messages: " ++ statusText response))
  else
    let* msgs := lift (json response) in
    let* data := lift (prop msgs "data") in
    ret (opt_first data).

(** [responseMessage?.content?.[0]?.text?.value ?? responseMessage?.content ?? ""] *)
Definition contentValue (responseMessage : value) : value :=
  nullish
    (nullish
       (opt_prop (opt_prop (opt_first (opt_prop responseMessage "content")) "text")
                 "value")
       (opt_prop responseMessage "content"))
    (VStr "").

Definition formattedResponse (rid : value) (now : Z) (c : Client)
    (responseMessage : value) : CompletionResponse :=
  {| id := rid;
     object := "chat.completion";
     created := now / 1000;
     model := deploymentName c;
     choices :=
       [{| index := 0;
           message_role := nullish (opt_prop responseMessage "role") (VStr "assistant");
           message_content := contentValue responseMessage;
           finish_reason := "stop" |}] |}.

Definition now : Async Z := fun w => (Return (Date_now (history w)), w).

(** [uploadedFiles.forEach((f) => this.delete_file(f.id).catch(() => {}))] *)
Fixpoint cleanup (uploadedFiles : list UploadedFile) : Async unit :=
  match uploadedFiles with
  | [] => ret tt
  | f :: rest => await detached (DeleteFile (up_id f)) in cleanup rest
  end.

Definition err_nothing_to_send : JsError :=
  Error "No messages or files to send. Use add_message() or add_file() first.".

(** The [try] block of [fetch]. *)
Definition fetch_try : Async unit :=
  let* c := this in
  if (length (messages c) =? 0)%nat && (length (files c) =? 0)%nat then
    throw err_nothing_to_send
  else
    let* uploadedFiles :=
      (if (0 <? length (files c))%nat then _uploadFiles else ret []) in
    await _getOrCreateAssistant in
    await _getOrCreateThread uploadedFiles in
    let* run := _runAssistant in
    let* responseMessage := _getMessages in
    let* rid := lift (prop run "id") in
    let* t := now in
    let* c' := this in
    await update (set_lastResponse (Some (formattedResponse rid t c' responseMessage))) in
    await cleanup uploadedFiles in
    ret tt.

(** The [catch] block of [fetch]. *)
Definition fetch_catch (error : JsError) : Async unit :=
  if String.eqb (name error) "AbortError" then
    let* c := this in
    throw (Error ("Request timeout after " ++ template (VNum (timeout c))
                  ++ "ms. Try increasing the timeout or check your connection."))
  else throw error.

Definition fetch : Async unit := try_catch fetch_try fetch_catch.

(** *** Response persistence *)

Definition choice_value (ch : CompletionChoice) : value :=
  VObj [("index", VNum (inject_Z (index ch)));
        ("message", VObj [("role", message_role ch);
                          ("content", message_content ch)]);
        ("finish_reason", VStr (finish_reason ch))].

Definition response_value (r : CompletionResponse) : value :=
  VObj [("id", id r);
        ("object", VStr (object r));
        ("created", VNum (inject_Z (created r)));
        ("model", VStr (model r));
        ("choices", VArr (List.map choice_value (choices r)))].

(** How [Array.prototype.join] prints one element. *)
Definition join_item (v : value) : string :=
  match v with
  | VUndefined | VNull => ""
  | _ => template v
  end.

Definition blank_line : string :=
  String (ascii_of_nat 10) (String (ascii_of_nat 10) EmptyString).

Definition write (fname data : string) : Async unit :=
  fun w => (writeFileSync (history w) fname data, log (WriteFile fname data) w).

(** [save_response({ file_name, file_type = "json" })] *)
Definition save_response (fname : string) (ftype : option string) : Async unit :=
  let* c := this in
  if String.eqb fname "" then
    throw (Error "file_name is required to save the response")
  else
    match _lastResponse c with
    | None =>
        throw (Error "No response available. Call fetch() first to get a response.")
    | Some r =>
        let kind := toLowerCase (default "json" ftype) in
        let* dataToWrite :=
          (if String.eqb kind "json" then
             match choices r with
             | [] =>
                 throw (mkError "TypeError"
                          "Cannot read properties of undefined (reading 'message')")
             | ch :: _ =>
                 let parsed :=
                   match message_content ch with
                   | VStr s =>
                       match JSON_parse s with
                       | Return v => v
                       | Throw _ => VStr s
                       end
                   | v => v
                   end in
                 ret (JSON_stringify_indent parsed)
             end
           else if String.eqb kind "text" then
             ret (join blank_line
                    (List.map (fun ch => join_item (message_content ch)) (choices r)))
           else ret (JSON_stringify (response_value r))) in
        write fname dataToWrite
    end.

(** *** Cleanup *)

Definition delete_file (fileId : value) : Async value :=
  let* response := call (DeleteFile fileId) in
  if negb (ok response) then throw (http_error "File deletion failed" response)
  else lift (json response).

Definition delete_assistant : Async unit :=
  let* c := this in
  if negb (truthy (assistantId c)) then ret tt
  else
    let* response := call (DeleteAssistant (assistantId c)) in
    if negb (ok response) then
      throw (http_error "Assistant deletion failed" response)
    else
      await update (set_assistantId VNull) in
      update (set_threadId VNull).

Definition list_files : Async value :=
  let* response := call ListFiles in
  if negb (ok response) then throw (http_error "Failed to list files" response)
  else lift (json response).

(** *** Sessions: a caller driving one instance *)

Inductive method :=
| Add_file (fileConfig : FileConfig)
| Add_message (a : MessageArg)
| Set_options (o : gmap string value)
| Do_fetch
| Save_response (fname : string) (ftype : option string)
| Clear
| Get_state
| Delete_file (fileId : value)
| Delete_assistant
| List_files
| Raw_response
| Get_response.

(** A synchronous method on the instance, seen from a session. *)
Definition sync (f : Client -> Completion unit * Client) : Async unit :=
  fun w => let (r, c) := f (client w) in (r, {| client := c; history := history w |}).

Definition discard {A} (r : Completion A) : Completion unit :=
  match r with
  | Return _ => Return tt
  | Throw e => Throw e
  end.

(** One method call; the returned value is dropped, the outcome kept. *)
Definition invoke (m : method) : Async unit :=
  match m with
  | Add_file fileConfig => sync (add_file fileConfig)
  | Add_message a => sync (add_message a)
  | Set_options o => update (set_options o)
  | Do_fetch => fetch
  | Save_response fname ftype => save_response fname ftype
  | Clear => update clear
  | Get_state => ret tt
  | Delete_file fileId => await delete_file fileId in ret tt
  | Delete_assistant => delete_assistant
  | List_files => await list_files in ret tt
  | Raw_response => let* c := this in lift (discard (raw_response c))
  | Get_response => let* c := this in lift (discard (response c))
  end.

(** A caller that goes on after every outcome, as if each call sat in its
    own [try/catch]: the outcomes in order, and the final world. *)
Fixpoint session (ms : list method) (w : World)
  : list (Completion unit) * World :=
  match ms with
  | [] => ([], w)
  | m :: rest =>
      let (r, w1) := invoke m w in
      let (rs, w2) := session rest w1 in
      (r :: rs, w2)
  end.

End Methods.

(** ** A scripted platform for running the definitions

    Test doubles for the built-ins and for the remote: enough of each to
    execute every method on concrete inputs. *)

Definition SyntaxError (msg : string) : JsError := mkError "SyntaxError" msg.

(** [JSON.parse] on the texts the examples use. *)
Definition parse_table : list (string * Completion value) :=
  [("null", Return VNull);
   ("{}", Return (VObj []));
   ("[]", Return (VArr []));
   ("42", Return (VNum 42));
   ("{oops", Throw (SyntaxError "Unexpected token o in JSON at position 1"))].

Fixpoint lookup_table {A} (k : string) (t : list (string * A)) : option A :=
  match t with
  | [] => None
  | (k', a) :: rest => if String.eqb k k' then Some a else lookup_table k rest
  end.

Definition scripted_parse (s : string) : Completion value :=
  default (Throw (SyntaxError "Unexpected end of JSON input")) (lookup_table s parse_table).

(** Integers print in decimal; other numbers as a fraction. *)
Definition scripted_number (q : Q) : string :=
  if Pos.eqb (Qden q) 1 then pretty (Qnum q)
  else (pretty (Qnum q) ++ "/" ++ pretty (Zpos (Qden q)))%string.

(** [String(v)] *)
Fixpoint scripted_String (v : value) : string :=
  match v with
  | VUndefined => "undefined"
  | VNull => "null"
  | VBool true => "true"
  | VBool false => "false"
  | VNum q => scripted_number q
  | VStr s => s
  | VArr items =>
      join ","
        (List.map (fun x => match x with
                            | VUndefined | VNull => ""
                            | _ => scripted_String x
                            end) items)
  | VObj _ => "[object Object]"
  end.

Definition quoted (s : string) : string :=
  String (ascii_of_nat 34) (s ++ String (ascii_of_nat 34) EmptyString).

(** [JSON.stringify(v)], without escapes and without indentation. *)
Fixpoint scripted_stringify (v : value) : string :=
  match v with
  | VUndefined => "undefined"
  | VNull => "null"
  | VBool true => "true"
  | VBool false => "false"
  | VNum q => scripted_number q
  | VStr s => quoted s
  | VArr items => ("[" ++ join "," (List.map scripted_stringify items) ++ "]")%string
  | VObj props =>
      ("{" ++ join ","
                (List.map
                   (fun kv => (quoted (fst kv) ++ ":" ++ scripted_stringify (snd kv))%string)
                   props)
       ++ "}")%string
  end.

(** The text after the last occurrence of [c], if [c] occurs. *)
Fixpoint after_last (c : ascii) (s : string) : option string :=
  match s with
  | EmptyString => None
  | String a rest =>
      match after_last c rest with
      | Some t => Some t
      | None => if Ascii.eqb a c then Some rest else None
      end
  end.

Definition scripted_basename (s : string) : string :=
  default s (after_last "/"%char s).

Definition scripted_extname (s : string) : string :=
  match after_last "."%char (scripted_basename s) with
  | Some t => "." ++ t
  | None => ""
  end.

Definition lower_ascii (a : ascii) : ascii :=
  let n := nat_of_ascii a in
  if (65 <=? n)%nat && (n <=? 90)%nat then ascii_of_nat (n + 32) else a.

Fixpoint scripted_lower (s : string) : string :=
  match s with
  | EmptyString => EmptyString
  | String a rest => String (lower_ascii a) (scripted_lower rest)
  end.

Definition disk : list (string * string) :=
  [("./data.json", "{}"); ("./broken.json", "{oops"); ("./notes.txt", "hello")].

Definition answer (body : value) : Completion Response :=
  Return {| ok := true; status := 200; statusText := "OK"; text := "";
            json := Return body |}.

Definition is_poll (e : event) : bool :=
  match e with
  | Fetch (GetRun _ _) => true
  | _ => false
  end.

(** The number of status checks in a history. *)
Definition polls (h : list event) : nat := length (List.filter is_poll h).

(** A remote that accepts everything, and whose run reports
    [status_at n] at the status check that follows [n] earlier ones. *)
Definition scripted_remote (status_at : nat -> string) (h : list event)
    (r : request) : Completion Response :=
  match r with
  | UploadFile _ _ _ => answer (VObj [("id", VStr "file-1")])
  | CreateAssistant _ _ _ _ => answer (VObj [("id", VStr "asst_1")])
  | CreateThread _ => answer (VObj [("id", VStr "thread_1")])
  | CreateRun _ _ => answer (VObj [("id", VStr "run_1"); ("status", VStr "queued")])
  | GetRun _ rid =>
      answer (VObj [("id", rid); ("status", VStr (status_at (polls h)));
                    ("last_error", VObj [("message", VStr "boom")])])
  | ListMessages _ =>
      answer (VObj [("data",
                VArr [VObj [("role", VStr "assistant");
                            ("content",
                              VArr [VObj [("text", VObj [("value", VStr "42")])]])]])])
  | DeleteFile _ | DeleteAssistant _ => answer (VObj [("deleted", VBool true)])
  | ListFiles => answer (VObj [("data", VArr [])])
  end.

Definition scripted (status_at : nat -> string) : Platform :=
  {| JSON_parse := scripted_parse;
     JSON_stringify := scripted_stringify;
     JSON_stringify_indent := scripted_stringify;
     String_of := scripted_String;
     extname := scripted_extname;
     basename := scripted_basename;
     toLowerCase := scripted_lower;
     existsSync := fun p => bool_decide (is_Some (lookup_table p disk));
     readFileSync := fun p =>
       match lookup_table p disk with
       | Some s => Return s
       | None => Throw (Error ("ENOENT: no such file or directory, open '" ++ p ++ "'"))
       end;
     writeFileSync := fun _ _ _ => Return tt;
     _fetch := scripted_remote status_at;
     Date_now := fun h => (1700000000000 + 1000 * Z.of_nat (length h))%Z |}.

Definition completed_at_once : nat -> string := fun _ => "completed".
Definition always_in_progress : nat -> string := fun _ => "in_progress".
Definition queued_three_times : nat -> string :=
  fun n => if (n <? 3)%nat then "queued" else "completed".

Definition test_config : AzureAIConfig :=
  {| cfg_endpoint := "https://my-resource.openai.azure.com/";
     cfg_apiKey := "secret";
     cfg_deploymentName := "gpt-4o-mini";
     cfg_apiVersion := None;
     cfg_timeout := None;
     cfg_initMsg := None |}.

(** The instance [new KudagonAzureAIClient(test_config)] builds. *)
Definition fresh : Client :=
  {| endpoint := "https://my-resource.openai.azure.com";
     apiKey := "secret";
     deploymentName := "gpt-4o-mini";
     apiVersion := "2024-08-01-preview";
     timeout := 30000%Q;
     messages := [];
     files := [];
     options := default_options;
     assistantId := VNull;
     threadId := VNull;
     initMsg := "You are a helpful assistant.";
     _lastResponse := None |}.

Definition start (c : Client) : World := {| client := c; history := [] |}.

Definition msg (r : nat) (rl ct : string) : Message :=
  {| ref := r; role := VStr rl; content := VStr ct |}.

(** ** Predicates used by the statements *)

(** A message passes both checks of the [add_message] loop. *)
Definition valid_message (m : Message) : bool :=
  truthy (role m) && truthy (content m) && role_included (role m).

(** The elements before the first one that fails a check. *)
Fixpoint valid_prefix (ms : list Message) : list Message :=
  match ms with
  | [] => []
  | m :: rest => if valid_message m then m :: valid_prefix rest else []
  end.

(** What a computation does to the world, whatever its outcome. *)
Definition keeps {A} (R : relation World) (m : Async A) : Prop :=
  forall w, R w (snd (m w)).

Definition creates_assistant (r : request) : bool :=
  match r with CreateAssistant _ _ _ _ => true | _ => false end.

Definition creates_thread (r : request) : bool :=
  match r with CreateThread _ => true | _ => false end.

(** The atomic effects of the orchestration before a result is stored:
    a request (an assistant or a thread is only ever requested while the
    instance has no usable identifier for it), a wait, and the assignment
    of a freshly obtained identifier. *)
Inductive orchestration_step : World -> World -> Prop :=
| step_fetch w r :
    (creates_assistant r = true -> truthy (assistantId (client w)) = false) ->
    (creates_thread r = true -> truthy (threadId (client w)) = false) ->
    orchestration_step w (log (Fetch r) w)
| step_sleep w ms :
    orchestration_step w (log (Sleep ms) w)
| step_assistantId w x :
    truthy (assistantId (client w)) = false ->
    orchestration_step w (with_client (set_assistantId x) w)
| step_threadId w x :
    truthy (threadId (client w)) = false ->
    orchestration_step w (with_client (set_threadId x) w).

Abbreviation orchestrates := (keeps (rtc orchestration_step)).

(** The effects of a whole [fetch]: the above, and storing a result. *)
Inductive fetch_step : World -> World -> Prop :=
| step_orchestration w w' :
    orchestration_step w w' -> fetch_step w w'
| step_materialize w r :
    fetch_step w (with_client (set_lastResponse (Some r)) w).

(** The number of requests in a history that satisfy [p]. *)
Definition requests (p : request -> bool) (h : list event) : nat :=
  length (List.filter (fun e => match e with Fetch r => p r | _ => false end) h).

(** The stored result is the same in both worlds. *)
Definition same_result (w w' : World) : Prop :=
  _lastResponse (client w') = _lastResponse (client w).

(** The configuration fields are the same in both worlds. *)
Definition same_config (w w' : World) : Prop :=
  endpoint (client w') = endpoint (client w) /\
  apiKey (client w') = apiKey (client w) /\
  deploymentName (client w') = deploymentName (client w) /\
  apiVersion (client w') = apiVersion (client w) /\
  timeout (client w') = timeout (client w).

(** A usable assistant identifier is kept, and no assistant is requested. *)
Definition reuses_assistant (w w' : World) : Prop :=
  truthy (assistantId (client w)) = true ->
  assistantId (client w') = assistantId (client w) /\
  requests creates_assistant (history w') = requests creates_assistant (history w).

(** A usable thread identifier is kept, and no thread is requested. *)
Definition reuses_thread (w w' : World) : Prop :=
  truthy (threadId (client w)) = true ->
  threadId (client w') = threadId (client w) /\
  requests creates_thread (history w') = requests creates_thread (history w).

(** Neither identifier has changed, and nothing was requested to be
    created. *)
Definition quiet (w w' : World) : Prop :=
  assistantId (client w') = assistantId (client w) /\
  threadId (client w') = threadId (client w) /\
  requests creates_assistant (history w') = requests creates_assistant (history w) /\
  requests creates_thread (history w') = requests creates_thread (history w).

(** What a computation has done to the world when it throws. *)
Definition throws_within {A} (R : relation World) (m : Async A) : Prop :=
  forall w e w', m w = (Throw e, w') -> R w w'.

(** The answer to a status check is a success response whose body carries
    a status that is neither [completed] nor one of the failure statuses. *)
Definition non_terminal (r : Completion Response) : bool :=
  match r with
  | Return response =>
      ok response &&
      match json response with
      | Return run =>
          match prop run "status" with
          | Return st => negb (is_str "completed" st) && negb (failure_status st)
          | Throw _ => false
          end
      | Throw _ => false
      end
  | Throw _ => false
  end.

(** One iteration of the poll loop that does not end it, as seen from
    outside: the status check, then the wait. *)
Definition poll_round (c : Client) (runId : value) : list event :=
  [Fetch (GetRun (threadId c) runId); Sleep 5000].

(** The result a run stored earlier, for the examples. *)
Definition earlier_result : CompletionResponse :=
  {| id := VStr "run_0";
     object := "chat.completion";
     created := 1600000000;
     model := "gpt-4o-mini";
     choices := [{| index := 0; message_role := VStr "assistant";
                    message_content := VStr "earlier"; finish_reason := "stop" |}] |}.

(** An instance with one user message and no result yet. *)
Definition asking : Client := set_messages [msg 1 "user" "hi"] fresh.

(** The same with the result of an earlier run. *)
Definition answered : Client := set_lastResponse (Some earlier_result) asking.

(** The same instance once an assistant and a thread have been obtained. *)
Definition resumed : Client :=
  set_threadId (VStr "thread_1") (set_assistantId (VStr "asst_1") answered).


Definition raw_text (fname body : string) : FileConfig :=
  {| file_path := None; raw_file := VStr body; file_name := Some fname;
     file_type := None |}.

(** What happened between two worlds is a sequence of events that all
    satisfy [P], added after the earlier history. *)
Definition emits (P : event -> bool) (w w' : World) : Prop :=
  exists evs, history w' = history w ++ evs /\ forallb P evs = true.

(** The events of the steps of a run before its result is stored. *)
Definition orchestration_event (e : event) : bool :=
  match e with
  | Fetch (UploadFile _ _ _) | Fetch (CreateAssistant _ _ _ _)
  | Fetch (CreateThread _) | Fetch (CreateRun _ _) | Fetch (GetRun _ _)
  | Fetch (ListMessages _) | Sleep _ => true
  | _ => false
  end.

Definition deletes_file (r : request) : bool :=
  match r with DeleteFile _ => true | _ => false end.

(** The events of a whole run: the above and the deletes that follow a
    stored result. *)
Definition fetch_event (e : event) : bool :=
  orchestration_event e || match e with Fetch r => deletes_file r | _ => false end.

Definition uploads_file (r : request) : bool :=
  match r with UploadFile _ _ _ => true | _ => false end.

Definition creates_run (r : request) : bool :=
  match r with CreateRun _ _ => true | _ => false end.

Definition lists_messages (r : request) : bool :=
  match r with ListMessages _ => true | _ => false end.

(** The text [save_response] writes for the kind [json]. *)
Definition json_dataToWrite `{Platform} (content : value) : string :=
  JSON_stringify_indent
    (match content with
     | VStr s => match JSON_parse s with Return v => v | Throw _ => VStr s end
     | v => v
     end).

Abbreviation orch := (emits orchestration_event).

(** The remote accepts an upload and names the file [fid]. *)
Definition upload_accepted (r : Completion Response) (fid : value) : Prop :=
  exists response fileData,
    r = Return response /\ ok response = true /\
    json response = Return fileData /\ prop fileData "id" = Return fid.

(** The remote accepts the uploads of [fs], one after the other from the
    history [h], and names them [ids]. *)
Fixpoint uploads_accepted `{Platform} (h : list event) (fs : list InternalFile)
    (ids : list value) : Prop :=
  match fs, ids with
  | [], [] => True
  | f :: fs', fid :: ids' =>
      upload_accepted (_fetch h (upload_request f)) fid /\
      uploads_accepted (h ++ [Fetch (upload_request f)]) fs' ids'
  | _, _ => False
  end.

(** The records [_uploadFiles] makes of files the remote named [ids]. *)
Fixpoint uploaded (fs : list InternalFile) (ids : list value) : list UploadedFile :=
  match fs, ids with
  | f :: fs', fid :: ids' =>
      {| up_id := fid; up_path := path f; up_type := type f |} :: uploaded fs' ids'
  | _, _ => []
  end.

Definition refusal : Response :=
  {| ok := false; status := 500; statusText := "Internal Server Error";
     text := "boom"; json := Return VNull |}.

(** A remote that refuses the second upload it sees and accepts
    everything else. *)
Definition refusing_second_upload : Platform :=
  {| JSON_parse := scripted_parse;
     JSON_stringify := scripted_stringify;
     JSON_stringify_indent := scripted_stringify;
     String_of := scripted_String;
     extname := scripted_extname;
     basename := scripted_basename;
     toLowerCase := scripted_lower;
     existsSync := fun _ => false;
     readFileSync := fun p => Throw (Error "ENOENT");
     writeFileSync := fun _ _ _ => Return tt;
     _fetch := fun h r =>
       match r with
       | UploadFile _ _ _ =>
           if (requests uploads_file h =? 1)%nat then Return refusal
           else scripted_remote completed_at_once h r
       | _ => scripted_remote completed_at_once h r
       end;
     Date_now := fun _ => 1700000000000%Z |}.

(** A remote that refuses to create an assistant. *)
Definition refusing_assistant : Platform :=
  {| JSON_parse := scripted_parse;
     JSON_stringify := scripted_stringify;
     JSON_stringify_indent := scripted_stringify;
     String_of := scripted_String;
     extname := scripted_extname;
     basename := scripted_basename;
     toLowerCase := scripted_lower;
     existsSync := fun _ => false;
     readFileSync := fun p => Throw (Error "ENOENT");
     writeFileSync := fun _ _ _ => Return tt;
     _fetch := fun h r =>
       match r with
       | CreateAssistant _ _ _ _ => Return refusal
       | _ => scripted_remote completed_at_once h r
       end;
     Date_now := fun _ => 1700000000000%Z |}.

(** Three staged text files. *)
Definition three_files : Client :=
  set_files [{| path := "a.txt"; type := "text"; file_content := VStr "a";
                rawContent := VStr "a" |};
             {| path := "b.txt"; type := "text"; file_content := VStr "b";
                rawContent := VStr "b" |};
             {| path := "c.txt"; type := "text"; file_content := VStr "c";
                rawContent := VStr "c" |}] asking.

(** Messages, files and options are the same in both worlds. *)
Definition same_store (w w' : World) : Prop :=
  messages (client w') = messages (client w) /\
  files (client w') = files (client w) /\
  options (client w') = options (client w).

(** [n] iterations of the poll loop that did not end it. *)
Definition rounds (n : nat) (c : Client) (runId : value) : list event :=
  concat (replicate n (poll_round c runId)).

Definition upload_event `{Platform} (file : InternalFile) : event :=
  Fetch (upload_request file).

Definition delete_event (f : UploadedFile) : event := Fetch (DeleteFile (up_id f)).

(** The request [_getOrCreateAssistant] sends for an instance. *)
Definition assistant_request (c : Client) : request :=
  CreateAssistant (deploymentName c) "File Analysis Assistant"
    (match List.find (has_role "system") (messages c) with
     | Some systemMessage => content systemMessage
     | None => default_instructions
     end)
    (default VUndefined (options c !! "temperature")).

(** A remote whose run has failed. *)
Definition always_failed : nat -> string := fun _ => "failed".

(** A transport that aborts every request. *)
Definition aborting : Platform :=
  {| JSON_parse := scripted_parse;
     JSON_stringify := scripted_stringify;
     JSON_stringify_indent := scripted_stringify;
     String_of := scripted_String;
     extname := scripted_extname;
     basename := scripted_basename;
     toLowerCase := scripted_lower;
     existsSync := fun _ => false;
     readFileSync := fun p => Throw (Error "ENOENT");
     writeFileSync := fun _ _ _ => Return tt;
     _fetch := fun _ _ => Throw (mkError "AbortError" "This operation was aborted");
     Date_now := fun _ => 1700000000000%Z |}.

(** The error [fetch] throws in place of an [AbortError]. *)
Definition err_request_timeout `{Platform} (c : Client) : JsError :=
  Error ("Request timeout after " ++ template (VNum (timeout c))
         ++ "ms. Try increasing the timeout or check your connection.").

(** An instance with a system prompt, a question and one staged file. *)
Definition briefed : Client :=
  set_files [{| path := "notes.txt"; type := "text"; file_content := VStr "hello";
                rawContent := VStr "hello" |}]
    (set_messages [msg 1 "system" "Be brief."; msg 2 "user" "hi"] fresh).

(** * Properties *)

Example new_client_test_config : new_client test_config = Return fresh.
Proof. reflexivity. Qed.

(** ** The store *)

Lemma set_messages_same c : set_messages (messages c) c = c.
Proof. by destruct c. Qed.

Lemma set_messages_twice x y c : set_messages x (set_messages y c) = set_messages x c.
Proof. done. Qed.

Lemma valid_prefix_is_prefix ms : valid_prefix ms `prefix_of` ms.
Proof.
  induction ms as [|m rest IH]; simpl; [done|].
  destruct (valid_message m); [by apply prefix_cons | apply prefix_nil].
Qed.

Lemma valid_prefix_all ms : forallb valid_message ms = true -> valid_prefix ms = ms.
Proof.
  induction ms as [|m rest IH]; simpl; [done|].
  destruct (valid_message m); simpl; [intros; f_equal; auto | done].
Qed.

(** What the loop does, in one equation: it pushes the valid prefix, and
    throws at the first element that fails a check, if there is one. *)
Lemma add_message_loop_eq ms c :
  add_message_loop ms c =
  (match List.find (fun m => negb (valid_message m)) ms with
   | None => Return tt
   | Some bad =>
       if negb (truthy (role bad)) || negb (truthy (content bad))
       then Throw err_message_fields else Throw err_message_role
   end,
   set_messages (messages c ++ valid_prefix ms) c).
Proof.
  revert c. induction ms as [|m rest IH]; intros c; simpl.
  - by rewrite app_nil_r, set_messages_same.
  - unfold valid_message.
    destruct (truthy (role m)) eqn:Hr, (truthy (content m)) eqn:Hc,
             (role_included (role m)) eqn:Hi;
      simpl; rewrite ?Hr, ?Hc; simpl;
      try by rewrite app_nil_r, set_messages_same.
    rewrite IH. simpl. by rewrite set_messages_twice, <- app_assoc.
Qed.

Lemma find_invalid ms :
  forallb valid_message ms = false ->
  exists bad, List.find (fun m => negb (valid_message m)) ms = Some bad.
Proof.
  induction ms as [|m rest IH]; simpl; [done|].
  destruct (valid_message m); simpl; eauto.
Qed.

(** C1, as the code has it.  When some element of the argument fails a
    check, [add_message] throws one of its two validation errors, and the
    store then holds what it held before followed by the elements that
    precede the first failing one: nothing from the failing element on is
    appended, and nothing else of the instance changes.  When the failing
    element is the first (or the only) one, the instance is unchanged. *)
Theorem add_message_rejection_keeps_valid_prefix (a : MessageArg) (c : Client) :
  forallb valid_message (messageArray a) = false ->
  (exists e,
      (e = err_message_fields \/ e = err_message_role) /\
      add_message a c =
        (Throw e, set_messages (messages c ++ valid_prefix (messageArray a)) c)) /\
  valid_prefix (messageArray a) `prefix_of` messageArray a /\
  valid_prefix (messageArray a) <> messageArray a /\
  (forall m rest, messageArray a = m :: rest -> valid_message m = false ->
                  snd (add_message a c) = c).
Proof.
  intros Hbad. unfold add_message. rewrite add_message_loop_eq.
  destruct (find_invalid _ Hbad) as [bad ->].
  repeat split.
  - destruct (negb (truthy (role bad)) || negb (truthy (content bad))); eauto.
  - apply valid_prefix_is_prefix.
  - intros Heq. clear bad. revert Hbad Heq.
    induction (messageArray a) as [|m rest IH]; simpl; [done|].
    destruct (valid_message m); simpl; [|done].
    intros Hbad [= Heq]. auto.
  - intros m rest -> Hm. simpl. rewrite Hm. simpl.
    by rewrite app_nil_r, set_messages_same.
Qed.

Lemma add_message_rejection_keeps_valid_prefix_witness :
  forallb valid_message
    (messageArray (Many [msg 1 "user" "hi"; msg 2 "root" "x"; msg 3 "user" "yo"])) = false /\
  exists e,
    (e = err_message_fields \/ e = err_message_role) /\
    add_message (Many [msg 1 "user" "hi"; msg 2 "root" "x"; msg 3 "user" "yo"]) fresh =
      (Throw e, set_messages (messages fresh ++ [msg 1 "user" "hi"]) fresh).
Proof.
  split; [reflexivity|].
  exact (proj1 (add_message_rejection_keeps_valid_prefix
                  (Many [msg 1 "user" "hi"; msg 2 "root" "x"; msg 3 "user" "yo"])
                  fresh eq_refl)).
Defined.

(** C1 as stated does not hold: a valid element that precedes an invalid
    one stays in the store after the call has thrown. *)
Lemma add_message_not_all_or_nothing :
  ~ (forall (a : MessageArg) (c : Client),
        forallb valid_message (messageArray a) = false ->
        is_throw (fst (add_message a c)) = true /\
        messages (snd (add_message a c)) = messages c).
Proof.
  intros Hclaim.
  destruct (Hclaim (Many [msg 1 "user" "hi"; msg 2 "root" "x"]) fresh eq_refl)
    as [_ Hsame].
  discriminate Hsame.
Qed.

(** C10.  A message whose [content] is the empty string is rejected with
    the missing-field error whatever its [role] (a valid one included), and
    the instance is unchanged; inside an array, the call throws and what
    has been appended is a prefix of the elements before that message. *)
Theorem add_message_rejects_empty_content (r : nat) (rl : value) (c : Client) :
  add_message (One {| ref := r; role := rl; content := VStr "" |}) c
    = (Throw err_message_fields, c) /\
  forall pre post,
    is_throw (fst (add_message
                     (Many (pre ++ {| ref := r; role := rl; content := VStr "" |} :: post))
                     c)) = true /\
    exists appended,
      appended `prefix_of` pre /\
      messages (snd (add_message
                       (Many (pre ++ {| ref := r; role := rl; content := VStr "" |} :: post))
                       c)) = messages c ++ appended.
Proof.
  split.
  - unfold add_message; simpl. by rewrite orb_true_r.
  - intros pre post. unfold add_message. rewrite add_message_loop_eq. simpl.
    set (m := {| ref := r; role := rl; content := VStr "" |}).
    assert (Hm : valid_message m = false).
    { unfold valid_message; simpl. by rewrite andb_false_r. }
    split.
    + induction pre as [|p pre IH]; simpl.
      * rewrite Hm; simpl. by destruct (negb (truthy rl)).
      * destruct (valid_message p) eqn:Hp; simpl; [done|].
        by destruct (negb (truthy (role p)) || negb (truthy (content p))).
    + exists (valid_prefix (pre ++ m :: post)). split; [|done].
      induction pre as [|p pre IH]; simpl.
      * rewrite Hm. apply prefix_nil.
      * destruct (valid_message p); [by apply prefix_cons | apply prefix_nil].
Qed.

(** C8.  After [clear()] the messages and files are empty and both
    identifiers are [null]; the options are the ones before the call,
    whether they are the constructor's defaults or the result of
    [set_options]. *)
Theorem clear_resets_store_keeps_options (c : Client) :
  messages (clear c) = [] /\
  files (clear c) = [] /\
  assistantId (clear c) = VNull /\
  threadId (clear c) = VNull /\
  options (clear c) = options c /\
  (forall o, options (clear (set_options o c)) = o ∪ options c) /\
  (forall cfg, match new_client cfg with
               | Return c0 => options (clear c0) = default_options
               | Throw _ => True
               end).
Proof.
  repeat split; try done.
  intros cfg. unfold new_client.
  destruct (String.eqb (cfg_endpoint cfg) ""); [done|].
  destruct (String.eqb (cfg_apiKey cfg) ""); [done|].
  destruct (String.eqb (cfg_deploymentName cfg) ""); done.
Qed.

(** ** Reasoning about asynchronous bodies *)

Lemma client_log e w : client (log e w) = client w.
Proof. done. Qed.

Lemma history_log e w : history (log e w) = history w ++ [e].
Proof. done. Qed.

Lemma history_with_client f w : history (with_client f w) = history w.
Proof. done. Qed.

Lemma client_with_client f w : client (with_client f w) = f (client w).
Proof. done. Qed.

Section Keeps.
Context {R : relation World} `{!PreOrder R}.

Lemma keeps_ret {A} (a : A) : keeps R (ret a).
Proof. intros w. reflexivity. Qed.

Lemma keeps_throw {A} e : keeps R (throw (A := A) e).
Proof. intros w. reflexivity. Qed.

Lemma keeps_lift {A} (r : Completion A) : keeps R (lift r).
Proof. intros w. reflexivity. Qed.

Lemma keeps_this : keeps R this.
Proof. intros w. reflexivity. Qed.

Lemma keeps_bind {A B} (m : Async A) (k : A -> Async B) :
  keeps R m -> (forall a, keeps R (k a)) -> keeps R (bind m k).
Proof.
  intros Hm Hk w. unfold bind. specialize (Hm w).
  destruct (m w) as [[a|e] w1]; simpl in *; [|done].
  etrans; [exact Hm | apply Hk].
Qed.

Lemma keeps_try_catch {A} (m : Async A) (h : JsError -> Async A) :
  keeps R m -> (forall e, keeps R (h e)) -> keeps R (try_catch m h).
Proof.
  intros Hm Hh w. unfold try_catch. specialize (Hm w).
  destruct (m w) as [[a|e] w1]; simpl in *; [done|].
  etrans; [exact Hm | apply Hh].
Qed.

End Keeps.

Lemma keeps_weaken {A} (R R' : relation World) (m : Async A) :
  (forall w w', R w w' -> R' w w') -> keeps R m -> keeps R' m.
Proof. intros HR Hm w. apply HR, Hm. Qed.

Lemma rtc_within {X} (step R : relation X) `{!PreOrder R} :
  (forall x y, step x y -> R x y) -> forall x y, rtc step x y -> R x y.
Proof.
  intros Hstep x y Hrtc. induction Hrtc as [|x y z Hxy _ IH]; [done|].
  etrans; [by apply Hstep | done].
Qed.

(** Inversion of a [bind] that returned. *)
Lemma bind_returns {A B} (m : Async A) (k : A -> Async B) w b w' :
  bind m k w = (Return b, w') ->
  exists a w1, m w = (Return a, w1) /\ k a w1 = (Return b, w').
Proof.
  unfold bind. destruct (m w) as [[a|e] w1]; [eauto | done].
Qed.

(** Inversion of a [bind] that threw. *)
Lemma bind_throws {A B} (m : Async A) (k : A -> Async B) w e w' :
  bind m k w = (Throw e, w') ->
  m w = (Throw e, w') \/
  exists a w1, m w = (Return a, w1) /\ k a w1 = (Throw e, w').
Proof.
  unfold bind. destruct (m w) as [[a|e1] w1]; intros Hk; [right; eauto | left; by simplify_eq].
Qed.

(** ** The footprint of the orchestration *)

Section Footprint.
Context `{Platform}.

Lemma harmless_fetch w r :
  creates_assistant r = false -> creates_thread r = false ->
  rtc orchestration_step w (log (Fetch r) w).
Proof. intros Ha Ht. apply rtc_once, step_fetch; congruence. Qed.

Lemma call_orchestrates r :
  creates_assistant r = false -> creates_thread r = false ->
  orchestrates (call r).
Proof. intros Ha Ht w. by apply harmless_fetch. Qed.

Lemma sleep_orchestrates ms : orchestrates (sleep ms).
Proof. intros w. apply rtc_once, step_sleep. Qed.

Lemma detached_orchestrates r :
  creates_assistant r = false -> creates_thread r = false ->
  orchestrates (detached r).
Proof. intros Ha Ht w. by apply harmless_fetch. Qed.

Lemma now_orchestrates : orchestrates now.
Proof. intros w. reflexivity. Qed.

Create HintDb keeps.

#[local] Hint Resolve keeps_ret keeps_throw keeps_lift keeps_this now_orchestrates
  sleep_orchestrates : keeps.

Ltac keeps_step :=
  lazymatch goal with
  | |- keeps _ (bind _ _) => apply keeps_bind; [|intros ?]
  | |- keeps _ (if ?b then _ else _) => destruct b
  | |- keeps _ (match ?x with _ => _ end) => destruct x
  | |- keeps _ (call _) => by apply call_orchestrates
  | |- keeps _ (detached _) => by apply detached_orchestrates
  | |- _ => solve [eauto with keeps]
  end.

Lemma _uploadFiles_loop_orchestrates todo uploadedFiles :
  orchestrates (_uploadFiles_loop todo uploadedFiles).
Proof.
  revert uploadedFiles. induction todo as [|file rest IH]; intros ups; simpl.
  - apply keeps_ret.
  - repeat keeps_step.
Qed.

Lemma _uploadFiles_orchestrates : orchestrates _uploadFiles.
Proof.
  unfold _uploadFiles. pose proof _uploadFiles_loop_orchestrates.
  repeat keeps_step.
Qed.

Lemma _getOrCreateAssistant_orchestrates : orchestrates _getOrCreateAssistant.
Proof.
  intros w. unfold _getOrCreateAssistant, bind, this, call, lift, update, ret, throw.
  destruct (truthy (assistantId (client w))) eqn:Hid; simpl; [done|].
  set (r := CreateAssistant _ _ _ _).
  assert (Hreq : orchestration_step w (log (Fetch r) w)).
  { apply step_fetch; [done | discriminate]. }
  destruct (_fetch (history w) r) as [response|e]; simpl; [|by apply rtc_once].
  destruct (ok response); simpl; [|by apply rtc_once].
  destruct (json response) as [assistant|e]; simpl; [|by apply rtc_once].
  destruct (prop assistant "id") as [aid|e]; simpl; [|by apply rtc_once].
  eapply rtc_l; [exact Hreq|]. by apply rtc_once, step_assistantId.
Qed.

Lemma _getOrCreateThread_orchestrates ups : orchestrates (_getOrCreateThread ups).
Proof.
  intros w. unfold _getOrCreateThread, bind, this, call, lift, update, ret, throw.
  destruct (truthy (threadId (client w))) eqn:Hid; simpl; [done|].
  set (r := CreateThread _).
  assert (Hreq : orchestration_step w (log (Fetch r) w)).
  { apply step_fetch; [discriminate | done]. }
  destruct (_fetch (history w) r) as [response|e]; simpl; [|by apply rtc_once].
  destruct (ok response); simpl; [|by apply rtc_once].
  destruct (json response) as [thread|e]; simpl; [|by apply rtc_once].
  destruct (prop thread "id") as [tid|e]; simpl; [|by apply rtc_once].
  eapply rtc_l; [exact Hreq|]. by apply rtc_once, step_threadId.
Qed.

Lemma poll_orchestrates left runId : orchestrates (poll left runId).
Proof.
  induction left as [|left IH]; simpl.
  - apply keeps_throw.
  - repeat keeps_step.
Qed.

Lemma _runAssistant_orchestrates : orchestrates _runAssistant.
Proof.
  unfold _runAssistant, _waitForRunCompletion. pose proof poll_orchestrates.
  repeat keeps_step.
Qed.

Lemma _getMessages_orchestrates : orchestrates _getMessages.
Proof. unfold _getMessages. repeat keeps_step. Qed.

Lemma cleanup_orchestrates ups : orchestrates (cleanup ups).
Proof.
  induction ups as [|f rest IH]; simpl; [apply keeps_ret|].
  repeat keeps_step.
Qed.

End Footprint.

(** ** What [fetch] leaves untouched *)

Section FetchFrame.
Context `{Platform}.

Lemma throws_within_bind {A B} (R : relation World) `{!PreOrder R}
    (m : Async A) (k : A -> Async B) :
  keeps R m -> (forall a, throws_within R (k a)) -> throws_within R (bind m k).
Proof.
  intros Hm Hk w e w' Hrun. specialize (Hm w).
  apply bind_throws in Hrun as [Hrun | (a & w1 & Hrun & Hrest)];
    rewrite Hrun in Hm; simpl in Hm; [done|].
  etrans; [exact Hm | by eapply Hk].
Qed.

Lemma throws_within_keeps {A} (R : relation World) (m : Async A) :
  keeps R m -> throws_within R m.
Proof. intros Hm w e w' Hrun. specialize (Hm w). by rewrite Hrun in Hm. Qed.

Lemma cleanup_returns ups w : fst (cleanup ups w) = Return tt.
Proof.
  revert w. induction ups as [|f rest IH]; intros w; simpl; [done|].
  unfold bind, detached. apply IH.
Qed.

(** Storing the result and the detached deletes cannot throw. *)
Lemma materialize_returns r ups w :
  fst (bind (update (set_lastResponse (Some r)))
         (fun _ => bind (cleanup ups) (fun _ => ret tt)) w) = Return tt.
Proof.
  unfold bind, update, ret.
  pose proof (cleanup_returns ups (with_client (set_lastResponse (Some r)) w)) as Hc.
  destruct (cleanup ups _) as [[[]|e] w1]; simpl in *; done.
Qed.

Lemma fetch_try_throws : throws_within (rtc orchestration_step) fetch_try.
Proof.
  pose proof _uploadFiles_orchestrates. pose proof _getOrCreateAssistant_orchestrates.
  pose proof _getOrCreateThread_orchestrates. pose proof _runAssistant_orchestrates.
  pose proof _getMessages_orchestrates. pose proof now_orchestrates.
  unfold fetch_try.
  apply throws_within_bind; [apply _ | apply keeps_this | intros c].
  destruct (_ && _); [apply throws_within_keeps, keeps_throw|].
  apply throws_within_bind;
    [apply _ | destruct (0 <? _)%nat; [done | apply keeps_ret] | intros ups].
  apply throws_within_bind; [apply _ | done | intros _].
  apply throws_within_bind; [apply _ | done | intros _].
  apply throws_within_bind; [apply _ | done | intros run].
  apply throws_within_bind; [apply _ | done | intros responseMessage].
  apply throws_within_bind; [apply _ | apply keeps_lift | intros rid].
  apply throws_within_bind; [apply _ | done | intros t].
  apply throws_within_bind; [apply _ | apply keeps_this | intros c'].
  intros w e w' Hrun.
  pose proof (materialize_returns (formattedResponse rid t c' responseMessage) ups w) as Hr.
  by rewrite Hrun in Hr.
Qed.

Lemma fetch_catch_world error w : snd (fetch_catch error w) = w.
Proof. unfold fetch_catch. by destruct (String.eqb _ _). Qed.

Lemma fetch_catch_throws error w : is_throw (fst (fetch_catch error w)) = true.
Proof. unfold fetch_catch. by destruct (String.eqb _ _). Qed.

Lemma fetch_throws : throws_within (rtc orchestration_step) fetch.
Proof.
  intros w e w' Hrun. unfold fetch, try_catch in Hrun.
  destruct (fetch_try w) as [[[]|e0] w1] eqn:Htry; [done|].
  apply fetch_try_throws in Htry.
  pose proof (fetch_catch_world e0 w1) as Hw. rewrite Hrun in Hw. simpl in Hw.
  by subst.
Qed.

Lemma orchestration_is_fetch_step w w' :
  rtc orchestration_step w w' -> rtc fetch_step w w'.
Proof. apply rtc_subrel. intros x y. apply step_orchestration. Qed.

Lemma fetch_steps : keeps (rtc fetch_step) fetch.
Proof.
  assert (Hweak : forall A (m : Async A),
             keeps (rtc orchestration_step) m -> keeps (rtc fetch_step) m).
  { intros A m. apply keeps_weaken, orchestration_is_fetch_step. }
  unfold fetch. apply keeps_try_catch.
  - unfold fetch_try.
    apply keeps_bind; [apply keeps_this | intros c].
    destruct (_ && _); [apply keeps_throw|].
    apply keeps_bind.
    { destruct (0 <? _)%nat; [apply Hweak, _uploadFiles_orchestrates | apply keeps_ret]. }
    intros ups.
    apply keeps_bind; [apply Hweak, _getOrCreateAssistant_orchestrates | intros _].
    apply keeps_bind; [apply Hweak, _getOrCreateThread_orchestrates | intros _].
    apply keeps_bind; [apply Hweak, _runAssistant_orchestrates | intros run].
    apply keeps_bind; [apply Hweak, _getMessages_orchestrates | intros responseMessage].
    apply keeps_bind; [apply keeps_lift | intros rid].
    apply keeps_bind; [apply Hweak, now_orchestrates | intros t].
    apply keeps_bind; [apply keeps_this | intros c'].
    apply keeps_bind; [intros w; apply rtc_once, step_materialize | intros _].
    apply keeps_bind; [apply Hweak, cleanup_orchestrates | intros _].
    apply keeps_ret.
  - intros e w. rewrite fetch_catch_world. reflexivity.
Qed.

End FetchFrame.

(** ** Invariants of the steps *)

#[local] Instance same_result_preorder : PreOrder same_result.
Proof.
  split; [by intros w | intros w1 w2 w3 H12 H23].
  unfold same_result in *. congruence.
Qed.

#[local] Instance same_config_preorder : PreOrder same_config.
Proof.
  split; [by intros w | intros w1 w2 w3 H12 H23].
  unfold same_config in *. intuition congruence.
Qed.

#[local] Instance reuses_assistant_preorder : PreOrder reuses_assistant.
Proof.
  split; [by intros w | intros w1 w2 w3 H12 H23 Hid].
  destruct (H12 Hid) as [Hid2 Hn2]. rewrite <- Hid2 in Hid.
  destruct (H23 Hid) as [Hid3 Hn3]. split; congruence.
Qed.

#[local] Instance reuses_thread_preorder : PreOrder reuses_thread.
Proof.
  split; [by intros w | intros w1 w2 w3 H12 H23 Hid].
  destruct (H12 Hid) as [Hid2 Hn2]. rewrite <- Hid2 in Hid.
  destruct (H23 Hid) as [Hid3 Hn3]. split; congruence.
Qed.

Lemma requests_log p e h :
  requests p (h ++ [e]) =
  (requests p h + match e with Fetch r => if p r then 1 else 0 | _ => 0 end)%nat.
Proof.
  unfold requests. rewrite List.filter_app, length_app. f_equal.
  simpl. destruct e as [r| |]; simpl; [by destruct (p r) | done | done].
Qed.

Lemma orchestration_same_result w w' :
  rtc orchestration_step w w' -> same_result w w'.
Proof. apply rtc_within; [apply _|]. by intros x y []. Qed.

Lemma fetch_same_config w w' : rtc fetch_step w w' -> same_config w w'.
Proof. apply rtc_within; [apply _|]. by intros x y [? ? []|]. Qed.

Lemma fetch_reuses_assistant w w' : rtc fetch_step w w' -> reuses_assistant w w'.
Proof.
  apply rtc_within; [apply _|].
  intros x y [? ? [w0 r Ha Ht|w0 ms|w0 v Hid|w0 v Hid]|w0 r] Husable;
    simpl; rewrite ?requests_log; try done; try congruence.
  destruct (creates_assistant r) eqn:Hr; [|by rewrite Nat.add_0_r].
  specialize (Ha eq_refl). congruence.
Qed.

Lemma fetch_reuses_thread w w' : rtc fetch_step w w' -> reuses_thread w w'.
Proof.
  apply rtc_within; [apply _|].
  intros x y [? ? [w0 r Ha Ht|w0 ms|w0 v Hid|w0 v Hid]|w0 r] Husable;
    simpl; rewrite ?requests_log; try done; try congruence.
  destruct (creates_thread r) eqn:Hr; [|by rewrite Nat.add_0_r].
  specialize (Ht eq_refl). congruence.
Qed.

(** ** Identifiers over a session *)

Section Quiet.
Context `{Platform}.

#[local] Instance quiet_preorder : PreOrder quiet.
Proof.
  split; [by intros w | intros w1 w2 w3 H12 H23].
  unfold quiet in *. intuition congruence.
Qed.

Lemma quiet_client f w :
  (forall c, assistantId (f c) = assistantId c /\ threadId (f c) = threadId c) ->
  quiet w (with_client f w).
Proof. intros Hf. unfold quiet. simpl. destruct (Hf (client w)). auto. Qed.

Lemma quiet_log e w :
  match e with
  | Fetch r => creates_assistant r = false /\ creates_thread r = false
  | _ => True
  end ->
  quiet w (log e w).
Proof.
  intros He. unfold quiet. simpl. rewrite !requests_log.
  destruct e as [r| |]; [destruct He as [-> ->]| |]; auto.
Qed.

Lemma add_message_ids a c :
  assistantId (snd (add_message a c)) = assistantId c /\
  threadId (snd (add_message a c)) = threadId c.
Proof. unfold add_message. by rewrite add_message_loop_eq. Qed.

Lemma add_file_ids fileConfig c :
  assistantId (snd (add_file fileConfig c)) = assistantId c /\
  threadId (snd (add_file fileConfig c)) = threadId c.
Proof.
  unfold add_file.
  destruct (add_file_source fileConfig) as [[[pathStr type] raw]|e]; [|done].
  by destruct (add_file_content type raw).
Qed.

Lemma sync_quiet f :
  (forall c, assistantId (snd (f c)) = assistantId c /\
             threadId (snd (f c)) = threadId c) ->
  keeps quiet (sync f).
Proof.
  intros Hf w. unfold sync, quiet. specialize (Hf (client w)).
  destruct (f (client w)). simpl in *. tauto.
Qed.

Lemma save_response_quiet fname ftype : keeps quiet (save_response fname ftype).
Proof.
  intros w. unfold save_response, bind, this, throw, ret, write. simpl.
  destruct (String.eqb fname ""); [done|].
  destruct (_lastResponse (client w)) as [r|]; [|done].
  destruct (String.eqb (toLowerCase (default "json" ftype)) "json").
  - destruct (choices r); [done | by apply quiet_log].
  - destruct (String.eqb (toLowerCase (default "json" ftype)) "text");
      by apply quiet_log.
Qed.

Lemma delete_file_quiet fileId : keeps quiet (delete_file fileId).
Proof.
  intros w. unfold delete_file, bind, call, throw, lift.
  destruct (_fetch _ _) as [response|e]; [|by apply quiet_log].
  destruct (negb (ok response)); by apply quiet_log.
Qed.

Lemma list_files_quiet : keeps quiet list_files.
Proof.
  intros w. unfold list_files, bind, call, throw, lift.
  destruct (_fetch _ _) as [response|e]; [|by apply quiet_log].
  destruct (negb (ok response)); by apply quiet_log.
Qed.

(** The methods that neither run the orchestration nor reset the
    identifiers do not touch them and request nothing to be created. *)
Lemma invoke_quiet m :
  m <> Do_fetch -> m <> Clear -> m <> Delete_assistant -> keeps quiet (invoke m).
Proof.
  intros Hf Hc Hd. destruct m; simpl; try done;
    repeat first
      [ apply keeps_ret | apply keeps_this | apply keeps_lift
      | apply sync_quiet, add_file_ids
      | apply sync_quiet, add_message_ids
      | apply save_response_quiet | apply delete_file_quiet
      | apply list_files_quiet
      | apply keeps_bind; [|intros ?] ].
Qed.

Lemma quiet_reuses w w' : quiet w w' -> reuses_assistant w w' /\ reuses_thread w w'.
Proof. unfold quiet. intros (? & ? & ? & ?). split; intros _; auto. Qed.

Lemma invoke_reuses m w :
  m <> Clear -> m <> Delete_assistant ->
  reuses_assistant w (snd (invoke m w)) /\ reuses_thread w (snd (invoke m w)).
Proof.
  intros Hc Hd.
  assert (Hdec : m = Do_fetch \/ m <> Do_fetch) by (destruct m; auto).
  destruct Hdec as [->|Hf].
  - simpl. pose proof (fetch_steps w).
    split; [by apply fetch_reuses_assistant | by apply fetch_reuses_thread].
  - by apply quiet_reuses, invoke_quiet.
Qed.

Lemma session_reuses ms w :
  Forall (fun m => m <> Clear /\ m <> Delete_assistant) ms ->
  reuses_assistant w (snd (session ms w)) /\ reuses_thread w (snd (session ms w)).
Proof.
  intros Hms. revert w. induction Hms as [|m rest [Hc Hd] _ IH]; intros w; simpl.
  - split; reflexivity.
  - destruct (invoke_reuses m w Hc Hd) as [Ha Ht].
    destruct (invoke m w) as [r w1]. specialize (IH w1).
    destruct (session rest w1) as [rs w2]. simpl in *. destruct IH as [Ha' Ht'].
    split; etrans; done.
Qed.

End Quiet.

(** ** Orchestration: failure, reuse, result *)

(** C3.  When [fetch] throws, whatever the step that failed, the stored
    result is the one from before the call: [raw_response] and [response]
    answer (or fail) exactly as they did, and no result exists if none
    existed. *)
Theorem fetch_failure_keeps_result `{Platform} (w w' : World) (e : JsError) :
  fetch w = (Throw e, w') ->
  _lastResponse (client w') = _lastResponse (client w) /\
  raw_response (client w') = raw_response (client w) /\
  response (client w') = response (client w) /\
  (_lastResponse (client w) = None ->
   raw_response (client w') = Throw err_no_response /\
   response (client w') = Throw err_no_response).
Proof.
  intros Hrun. apply fetch_throws, orchestration_same_result in Hrun.
  unfold same_result in Hrun. unfold raw_response, response. rewrite Hrun.
  split; [done|]. split; [done|]. split; [done|]. by intros ->.
Qed.

Lemma fetch_failure_keeps_result_witness :
  let r := fetch (H := scripted always_in_progress) (start answered) in
  fst r = Throw err_timed_out /\
  raw_response (client (snd r)) = Return earlier_result.
Proof.
  assert (Hrun : fetch (H := scripted always_in_progress) (start answered)
                 = (Throw err_timed_out,
                    snd (fetch (H := scripted always_in_progress) (start answered))))
    by (vm_compute; reflexivity).
  split; [by vm_compute|].
  exact (eq_trans (proj1 (proj2 (fetch_failure_keeps_result _ _ _ Hrun))) eq_refl).
Defined.

(** A usable identifier short-cuts the resolution: no request, no change. *)
Lemma _getOrCreateAssistant_reuses `{Platform} w :
  truthy (assistantId (client w)) = true ->
  _getOrCreateAssistant w = (Return (assistantId (client w)), w).
Proof.
  intros Hid. unfold _getOrCreateAssistant, bind, this. simpl. by rewrite Hid.
Qed.

Lemma _getOrCreateThread_reuses `{Platform} ups w :
  truthy (threadId (client w)) = true ->
  _getOrCreateThread ups w = (Return (threadId (client w)), w).
Proof.
  intros Hid. unfold _getOrCreateThread, bind, this. simpl. by rewrite Hid.
Qed.

(** C6, as the code has it.  The test for an existing identifier is its
    truthiness.  When [assistantId] (resp. [threadId]) is truthy, that is
    neither [null] nor the empty string, a [fetch] sends no
    assistant-creation (resp. thread-creation) request and leaves the
    identifier as it is, whether the run then succeeds or fails; the
    resolution step returns the stored identifier without touching the
    world.  The same holds over any sequence of method calls that contains
    neither [clear()] nor [delete_assistant()], the two methods that reset
    the identifiers. *)
Theorem fetch_reuses_identifiers `{Platform} (w : World) :
  (truthy (assistantId (client w)) = true ->
   assistantId (client (snd (fetch w))) = assistantId (client w) /\
   requests creates_assistant (history (snd (fetch w)))
     = requests creates_assistant (history w) /\
   _getOrCreateAssistant w = (Return (assistantId (client w)), w)) /\
  (truthy (threadId (client w)) = true ->
   threadId (client (snd (fetch w))) = threadId (client w) /\
   requests creates_thread (history (snd (fetch w)))
     = requests creates_thread (history w) /\
   forall ups, _getOrCreateThread ups w = (Return (threadId (client w)), w)) /\
  (forall ms,
      Forall (fun m => m <> Clear /\ m <> Delete_assistant) ms ->
      (truthy (assistantId (client w)) = true ->
       assistantId (client (snd (session ms w))) = assistantId (client w) /\
       requests creates_assistant (history (snd (session ms w)))
         = requests creates_assistant (history w)) /\
      (truthy (threadId (client w)) = true ->
       threadId (client (snd (session ms w))) = threadId (client w) /\
       requests creates_thread (history (snd (session ms w)))
         = requests creates_thread (history w))).
Proof.
  pose proof (fetch_steps w) as Hsteps. split; [|split].
  - intros Hid. destruct (fetch_reuses_assistant _ _ Hsteps Hid) as [Hsame Hcount].
    repeat split; [done | done | by apply _getOrCreateAssistant_reuses].
  - intros Hid. destruct (fetch_reuses_thread _ _ Hsteps Hid) as [Hsame Hcount].
    repeat split; [done | done | intros ups; by apply _getOrCreateThread_reuses].
  - intros ms Hms. apply session_reuses, Hms.
Qed.

Lemma fetch_reuses_identifiers_witness :
  truthy (assistantId (client (start resumed))) = true /\
  truthy (threadId (client (start resumed))) = true /\
  requests creates_assistant
    (history (snd (fetch (H := scripted completed_at_once) (start resumed)))) = 0%nat /\
  requests creates_thread
    (history (snd (fetch (H := scripted completed_at_once) (start resumed)))) = 0%nat.
Proof.
  split; [reflexivity|]. split; [reflexivity|]. split.
  - exact (proj1 (proj2 (proj1 (fetch_reuses_identifiers
                                  (H := scripted completed_at_once) (start resumed))
                               eq_refl))).
  - exact (proj1 (proj2 (proj1 (proj2 (fetch_reuses_identifiers
                                         (H := scripted completed_at_once)
                                         (start resumed)))
                               eq_refl))).
Defined.

(** C6 as stated does not hold: an identifier that is not [null] but empty
    is not reused, the assistant is requested again. *)
Lemma fetch_recreates_for_empty_identifier :
  ~ (forall (P : Platform) (w : World),
        assistantId (client w) <> VNull ->
        requests creates_assistant (history (snd (fetch w)))
          = requests creates_assistant (history w) /\
        assistantId (client (snd (fetch w))) = assistantId (client w)).
Proof.
  intros Hclaim.
  destruct (Hclaim (scripted completed_at_once)
              (start (set_assistantId (VStr "") answered))) as [Hcount _];
    [discriminate|].
  vm_compute in Hcount. discriminate Hcount.
Qed.

Lemma prop_returns v k x :
  prop v k = Return x ->
  x = opt_prop v k /\ forall k', prop v k' = Return (opt_prop v k').
Proof. destruct v; simpl; intros [= <-]; done. Qed.

Section Result.
Context `{Platform}.

Lemma poll_returns left runId w run w' :
  poll left runId w = (Return run, w') ->
  is_str "completed" (opt_prop run "status") = true /\
  prop run "id" = Return (opt_prop run "id").
Proof.
  revert w. induction left as [|left IH]; intros w; simpl; [done|].
  unfold bind, this, call, lift, throw, ret, sleep. simpl.
  destruct (_fetch _ _) as [response|e]; simpl; [|done].
  destruct (ok response); simpl; [|done].
  destruct (json response) as [run0|e]; simpl; [|done].
  destruct (prop run0 "status") as [st|e] eqn:Hst; simpl; [|done].
  apply prop_returns in Hst as [-> Hprop].
  destruct (is_str "completed" (opt_prop run0 "status")) eqn:Hdone; simpl.
  - intros [= -> _]. auto.
  - destruct (failure_status (opt_prop run0 "status")); simpl; [done|]. apply IH.
Qed.

Lemma _runAssistant_returns w run w' :
  _runAssistant w = (Return run, w') ->
  is_str "completed" (opt_prop run "status") = true /\
  prop run "id" = Return (opt_prop run "id").
Proof.
  intros Hrun. unfold _runAssistant in Hrun.
  apply bind_returns in Hrun as (c & w1 & _ & Hrun).
  apply bind_returns in Hrun as (response & w2 & _ & Hrun).
  destruct (negb (ok response)); [done|].
  apply bind_returns in Hrun as (run0 & w3 & _ & Hrun).
  apply bind_returns in Hrun as (rid & w4 & _ & Hrun).
  by eapply poll_returns.
Qed.

Lemma cleanup_client ups w : client (snd (cleanup ups w)) = client w.
Proof.
  revert w. induction ups as [|f rest IH]; intros w; simpl; [done|].
  unfold bind, detached. by rewrite IH.
Qed.

(** The steps a [fetch] that returned went through. *)
Lemma fetch_returns_inv (w w' : World) :
  fetch w = (Return tt, w') ->
  exists ups aid tid run responseMessage wb wc wd we wf,
    (if (0 <? length (files (client w)))%nat then _uploadFiles else ret []) w
      = (Return ups, wb) /\
    _getOrCreateAssistant wb = (Return aid, wc) /\
    _getOrCreateThread ups wc = (Return tid, wd) /\
    _runAssistant wd = (Return run, we) /\
    _getMessages we = (Return responseMessage, wf) /\
    cleanup ups
      (with_client
         (set_lastResponse
            (Some (formattedResponse (opt_prop run "id") (Date_now (history wf))
                     (client wf) responseMessage)))
         wf) = (Return tt, w').
Proof.
  intros Hrun. unfold fetch, try_catch in Hrun.
  destruct (fetch_try w) as [[[]|e0] w0] eqn:Htry.
  2: { pose proof (fetch_catch_throws e0 w0) as Hc. by rewrite Hrun in Hc. }
  injection Hrun as ->. unfold fetch_try in Htry.
  apply bind_returns in Htry as (c & wa & [= <- <-] & Htry).
  destruct (_ && _); [done|].
  apply bind_returns in Htry as (ups & wb & Hups & Htry).
  apply bind_returns in Htry as (aid & wc & Haid & Htry).
  apply bind_returns in Htry as (tid & wd & Htid & Htry).
  apply bind_returns in Htry as (run & we & Hrun & Htry).
  apply bind_returns in Htry as (responseMessage & wf & Hmsg & Htry).
  apply bind_returns in Htry as (rid & wg & Hrid & Htry).
  apply bind_returns in Htry as (t & wh & [= <- <-] & Htry).
  apply bind_returns in Htry as (c' & wi & [= <- <-] & Htry).
  apply bind_returns in Htry as ([] & wj & [= <-] & Htry).
  apply bind_returns in Htry as ([] & wk & Hclean & [= <-]).
  destruct (_runAssistant_returns _ _ _ Hrun) as [_ Hid].
  unfold lift in Hrid. rewrite Hid in Hrid. injection Hrid as <- <-.
  by exists ups, aid, tid, run, responseMessage, wb, wc, wd, we, wf.
Qed.

End Result.

Example fetch_stores_the_reply :
  response (client (snd (fetch (H := scripted queued_three_times) (start answered))))
  = Return (VStr "42").
Proof. by vm_compute. Qed.

(** ** The poll loop *)

Lemma polls_rounds c runId n h :
  polls (h ++ concat (replicate n (poll_round c runId))) = (polls h + n)%nat.
Proof.
  unfold polls. rewrite List.filter_app, length_app. f_equal.
  induction n as [|n IH]; simpl; [done | by rewrite IH].
Qed.

(** The error of a failure status never is the time-out error. *)
Lemma err_run_is_not_timeout `{Platform} run :
  failure_status (opt_prop run "status") = true -> err_run run <> err_timed_out.
Proof.
  unfold err_run, err_timed_out, Error, failure_status.
  destruct (opt_prop run "status") as [| | | |s| |]; simpl; try done.
  intros Hst [= Hmsg].
  apply orb_true_iff in Hst as [Hst|Hst]; [apply orb_true_iff in Hst as [Hst|Hst]|];
    apply String.eqb_eq in Hst; subst s; discriminate Hmsg.
Qed.

Section Polling.
Context `{Platform}.
Hypothesis never_done : forall h t r, non_terminal (_fetch h (GetRun t r)) = true.

Lemma poll_non_terminal left runId w :
  poll left runId w =
  (Throw err_timed_out,
   {| client := client w;
      history := history w ++ concat (replicate left (poll_round (client w) runId)) |}).
Proof.
  revert w. induction left as [|left IH]; intros w; simpl.
  - unfold throw. rewrite app_nil_r. by destruct w.
  - unfold bind, this, call, lift, sleep. simpl.
    pose proof (never_done (history w) (threadId (client w)) runId) as Hnt.
    unfold non_terminal in Hnt.
    destruct (_fetch _ _) as [response|e]; [|done]. simpl.
    destruct (ok response); [|done]. simpl in *.
    destruct (json response) as [run|e]; [|done]. simpl.
    destruct (prop run "status") as [st|e]; [|done]. simpl.
    apply andb_true_iff in Hnt as [Hc Hf].
    apply negb_true_iff in Hc, Hf. rewrite Hc, Hf.
    rewrite IH. simpl. by rewrite <- !app_assoc.
Qed.

Lemma polls_log e h :
  polls (h ++ [e]) = (polls h + if is_poll e then 1 else 0)%nat.
Proof.
  unfold polls. rewrite List.filter_app, length_app. f_equal.
  simpl. by destruct (is_poll e).
Qed.

(** Against such a remote a submitted run can only end in the time-out. *)
Lemma _runAssistant_never_done w :
  is_throw (fst (_runAssistant w)) = true /\
  (polls (history (snd (_runAssistant w))) = polls (history w) \/
   fst (_runAssistant w) = Throw err_timed_out /\
   polls (history (snd (_runAssistant w))) = (polls (history w) + 60)%nat).
Proof.
  unfold _runAssistant, bind, this, call, lift, throw, _waitForRunCompletion.
  assert (Hlog : forall r, is_poll (Fetch r) = false ->
                           polls (history (log (Fetch r) w)) = polls (history w)).
  { intros r Hr. rewrite history_log, polls_log, Hr. lia. }
  destruct (_fetch _ _) as [response|e]; cbn [fst snd is_throw];
    [|split; [done | left; by apply Hlog]].
  destruct (negb (ok response)); cbn [fst snd is_throw];
    [split; [done | left; by apply Hlog]|].
  destruct (json response) as [run|e]; cbn [fst snd is_throw];
    [|split; [done | left; by apply Hlog]].
  destruct (prop run "id") as [rid|e]; cbn [fst snd is_throw];
    [|split; [done | left; by apply Hlog]].
  rewrite poll_non_terminal. cbn [fst snd is_throw history client].
  split; [done|]. right. split; [done|].
  rewrite polls_rounds. f_equal. by apply Hlog.
Qed.

Lemma fetch_never_returns w : is_throw (fst (fetch w)) = true.
Proof.
  destruct (fetch w) as [[[]|e] w'] eqn:Hrun; [|done].
  apply fetch_returns_inv in Hrun
    as (? & ? & ? & run & ? & ? & ? & wd & we & ? & _ & _ & _ & Hrun & _).
  destruct (_runAssistant_never_done wd) as [Hthrow _].
  by rewrite Hrun in Hthrow.
Qed.

End Polling.

(** C4.  Against a remote whose every status check reports a status that
    is neither [completed] nor a failure status, the poll loop makes 60
    status checks, each followed by the 5 s wait, and then throws the
    time-out error; the instance is left as it was.  That error differs
    from the one thrown for [failed], [cancelled] and [expired].  Against
    such a remote no [fetch] returns, and the [catch] block of [fetch]
    hands the time-out error on as it is. *)
Theorem poll_times_out_after_60_checks `{Platform} (runId : value) (w : World) :
  (forall h t r, non_terminal (_fetch h (GetRun t r)) = true) ->
  fst (_waitForRunCompletion runId w) = Throw err_timed_out /\
  client (snd (_waitForRunCompletion runId w)) = client w /\
  history (snd (_waitForRunCompletion runId w))
    = history w ++ concat (replicate 60 (poll_round (client w) runId)) /\
  polls (history (snd (_waitForRunCompletion runId w))) = (polls (history w) + 60)%nat /\
  (forall run, failure_status (opt_prop run "status") = true ->
               err_run run <> err_timed_out) /\
  (forall w0, is_throw (fst (fetch w0)) = true) /\
  (forall w0, fetch_catch err_timed_out w0 = (Throw err_timed_out, w0)).
Proof.
  intros Hremote. unfold _waitForRunCompletion, maxAttempts.
  rewrite (poll_non_terminal Hremote). cbn [fst snd client history].
  repeat split;
    [apply polls_rounds | apply err_run_is_not_timeout
     | by apply fetch_never_returns].
Qed.

Lemma poll_times_out_after_60_checks_witness :
  (forall h t r,
      non_terminal (_fetch (Platform := scripted always_in_progress) h (GetRun t r)) = true) /\
  fst (_waitForRunCompletion (H := scripted always_in_progress) (VStr "run_1") (start resumed))
    = Throw err_timed_out /\
  polls (history (snd (_waitForRunCompletion (H := scripted always_in_progress)
                         (VStr "run_1") (start resumed)))) = 60%nat.
Proof.
  assert (Hremote : forall h t r,
             non_terminal (_fetch (Platform := scripted always_in_progress) h (GetRun t r))
             = true) by (intros h t r; reflexivity).
  split; [exact Hremote|].
  pose proof (poll_times_out_after_60_checks
                (H := scripted always_in_progress) (VStr "run_1") (start resumed) Hremote)
    as (Hthrow & _ & _ & Hpolls & _).
  split; [exact Hthrow | exact Hpolls].
Defined.

(** The same through [fetch]: the caller sees the time-out error after 60
    status checks. *)
Example fetch_times_out :
  let r := fetch (H := scripted always_in_progress) (start answered) in
  fst r = Throw err_timed_out /\ polls (history (snd r)) = 60%nat.
Proof. by vm_compute. Qed.

(** Three [queued] answers, then [completed]: four status checks. *)
Example fetch_polls_until_completed :
  let r := fetch (H := scripted queued_three_times) (start answered) in
  fst r = Return tt /\ polls (history (snd r)) = 4%nat.
Proof. by vm_compute. Qed.

(** ** Sessions: when a result exists *)

Section Sessions.
Context `{Platform}.

Lemma add_message_same_result a c :
  _lastResponse (snd (add_message a c)) = _lastResponse c.
Proof. unfold add_message. by rewrite add_message_loop_eq. Qed.

Lemma add_file_same_result fileConfig c :
  _lastResponse (snd (add_file fileConfig c)) = _lastResponse c.
Proof.
  unfold add_file.
  destruct (add_file_source fileConfig) as [[[pathStr type] raw]|e]; [|done].
  by destruct (add_file_content type raw).
Qed.

Lemma sync_same_result f :
  (forall c, _lastResponse (snd (f c)) = _lastResponse c) ->
  keeps same_result (sync f).
Proof.
  intros Hf w. unfold sync, same_result. specialize (Hf (client w)).
  by destruct (f (client w)).
Qed.

Lemma call_same_result r : keeps same_result (call r).
Proof. by intros w. Qed.

Lemma save_response_same_result fname ftype :
  keeps same_result (save_response fname ftype).
Proof.
  intros w. unfold save_response, bind, this, throw, ret, write. simpl.
  destruct (String.eqb fname ""); [done|].
  destruct (_lastResponse (client w)) as [r|]; [|done].
  destruct (String.eqb (toLowerCase (default "json" ftype)) "json").
  - by destruct (choices r).
  - by destruct (String.eqb (toLowerCase (default "json" ftype)) "text").
Qed.

Lemma delete_file_same_result fileId : keeps same_result (delete_file fileId).
Proof.
  intros w. unfold delete_file, bind, call, throw, lift.
  destruct (_fetch _ _) as [response|e]; [|done]. by destruct (negb (ok response)).
Qed.

Lemma list_files_same_result : keeps same_result list_files.
Proof.
  intros w. unfold list_files, bind, call, throw, lift.
  destruct (_fetch _ _) as [response|e]; [|done]. by destruct (negb (ok response)).
Qed.

Lemma delete_assistant_same_result : keeps same_result delete_assistant.
Proof.
  intros w. unfold delete_assistant, bind, this, call, throw, update, ret. simpl.
  destruct (negb (truthy (assistantId (client w)))); [done|].
  destruct (_fetch _ _) as [response|e]; [|done]. by destruct (negb (ok response)).
Qed.

(** Every method but [fetch] leaves the stored result alone. *)
Lemma invoke_same_result m :
  m <> Do_fetch -> keeps same_result (invoke m).
Proof.
  intros Hm. destruct m; simpl; try done;
    repeat first
      [ apply keeps_ret | apply keeps_this | apply keeps_lift
      | apply sync_same_result, add_file_same_result
      | apply sync_same_result, add_message_same_result
      | apply save_response_same_result | apply delete_file_same_result
      | apply delete_assistant_same_result | apply list_files_same_result
      | apply keeps_bind; [|intros ?] ].
Qed.

(** A [fetch] that returns has stored a result; one that throws has not
    touched the stored one. *)
Lemma fetch_outcome w :
  match fetch w with
  | (Return _, w') => is_Some (_lastResponse (client w'))
  | (Throw _, w') => same_result w w'
  end.
Proof.
  destruct (fetch w) as [[[]|e] w'] eqn:Hrun.
  - apply fetch_returns_inv in Hrun
      as (ups & ? & ? & run & reply & ? & ? & ? & ? & wf & _ & _ & _ & _ & _ & Hclean).
    pose proof (cleanup_client ups
                  (with_client
                     (set_lastResponse
                        (Some (formattedResponse (opt_prop run "id")
                                 (Date_now (history wf)) (client wf) reply)))
                     wf)) as Hc.
    rewrite Hclean in Hc. simpl in Hc. rewrite Hc. simpl. eauto.
  - by apply fetch_throws, orchestration_same_result in Hrun.
Qed.

Lemma session_result ms w :
  is_Some (_lastResponse (client (snd (session ms w)))) <->
  is_Some (_lastResponse (client w)) \/
  exists i, ms !! i = Some Do_fetch /\ fst (session ms w) !! i = Some (Return tt).
Proof.
  revert w. induction ms as [|m rest IH]; intros w; simpl.
  - split; [auto | intros [?|(i & Hi & _)]; [done | by destruct i]].
  - destruct (invoke m w) as [r w1] eqn:Hm.
    specialize (IH w1). destruct (session rest w1) as [rs w2]. simpl in *.
    rewrite IH. clear IH.
    assert (Hstep : is_Some (_lastResponse (client w1)) <->
                    is_Some (_lastResponse (client w)) \/ (m = Do_fetch /\ r = Return tt)).
    { assert (Hdec : m = Do_fetch \/ m <> Do_fetch) by (destruct m; auto).
      destruct Hdec as [->|Hne].
      - simpl in Hm. pose proof (fetch_outcome w) as Hout. rewrite Hm in Hout.
        destruct r as [[]|e]; [split; auto|].
        unfold same_result in Hout. rewrite Hout.
        split; [auto | intros [?|[_ ?]]; done].
      - pose proof (invoke_same_result m Hne w) as Hsame. rewrite Hm in Hsame.
        unfold same_result in Hsame. simpl in Hsame. rewrite Hsame.
        split; [auto | intros [?|[? _]]; done]. }
    rewrite Hstep. split.
    + intros [[?|[-> ->]]|(i & Hi & Hr)]; [by left| |].
      * right. by exists 0%nat.
      * right. by exists (S i).
    + intros [?|(i & Hi & Hr)]; [by left; left|].
      destruct i as [|i]; simpl in *; [left; right; by simplify_eq|].
      right. eauto.
Qed.

End Sessions.

Lemma new_client_has_no_result cfg c :
  new_client cfg = Return c -> _lastResponse c = None.
Proof.
  unfold new_client.
  destruct (String.eqb (cfg_endpoint cfg) ""); [done|].
  destruct (String.eqb (cfg_apiKey cfg) ""); [done|].
  destruct (String.eqb (cfg_deploymentName cfg) ""); [done|].
  by intros [= <-].
Qed.

(** C2, as the code has it.  Over any sequence of method calls on a newly
    constructed instance, a stored result exists exactly when some [fetch]
    of the sequence has returned: [clear()] does not discard it, and
    [raw_response] and [response] answer after [clear()] as they did
    before it. *)
Theorem result_exists_iff_fetch_succeeded `{Platform}
    (cfg : AzureAIConfig) (c : Client) (ms : list method) (h : list event) :
  new_client cfg = Return c ->
  (is_Some (_lastResponse (client (snd (session ms {| client := c; history := h |}))))
   <->
   exists i, ms !! i = Some Do_fetch /\
             fst (session ms {| client := c; history := h |}) !! i = Some (Return tt)) /\
  (forall c', _lastResponse (clear c') = _lastResponse c' /\
              raw_response (clear c') = raw_response c' /\
              response (clear c') = response c').
Proof.
  intros Hnew. split; [|done].
  rewrite session_result. simpl. rewrite (new_client_has_no_result _ _ Hnew).
  split; [intros [[? [=]]|?]; done | auto].
Qed.

Lemma result_exists_iff_fetch_succeeded_witness :
  new_client test_config = Return fresh /\
  (is_Some (_lastResponse
              (client (snd (session (H := scripted completed_at_once)
                              [Add_message (One (msg 1 "user" "hi")); Do_fetch; Clear]
                              (start fresh)))))
   <->
   exists i,
     [Add_message (One (msg 1 "user" "hi")); Do_fetch; Clear] !! i = Some Do_fetch /\
     fst (session (H := scripted completed_at_once)
            [Add_message (One (msg 1 "user" "hi")); Do_fetch; Clear]
            (start fresh)) !! i = Some (Return tt)).
Proof.
  split; [reflexivity|].
  exact (proj1 (result_exists_iff_fetch_succeeded (H := scripted completed_at_once)
                  test_config fresh
                  [Add_message (One (msg 1 "user" "hi")); Do_fetch; Clear] []
                  eq_refl)).
Defined.

(** C2 as stated does not hold: after a run that produced a result,
    [clear()] leaves [raw_response] and [response] answering. *)
Lemma clear_keeps_the_result :
  ~ (forall (P : Platform) (w w' : World),
        fetch w = (Return tt, w') ->
        raw_response (clear (client w')) = Throw err_no_response /\
        response (clear (client w')) = Throw err_no_response).
Proof.
  intros Hclaim.
  destruct (Hclaim (scripted completed_at_once) (start asking)
              (snd (fetch (H := scripted completed_at_once) (start asking))))
    as [Hraw _]; [by vm_compute|].
  vm_compute in Hraw. discriminate Hraw.
Qed.

(** ** The thread message list *)

Lemma threadMessages_roles_contents `{Platform} msgs ups :
  List.map (fun t => (tm_role t, tm_content t)) (threadMessages msgs ups)
  = List.map (fun m => (role m, content m))
      (List.filter (fun m => negb (has_role "system" m)) msgs).
Proof. unfold threadMessages. by rewrite List.map_map. Qed.

Lemma find_some_first {A} (p : A -> bool) l x :
  List.find p l = Some x ->
  exists before after,
    l = before ++ x :: after /\ p x = true /\ forallb (fun y => negb (p y)) before = true.
Proof.
  induction l as [|y l IH]; simpl; [done|].
  destruct (p y) eqn:Hy.
  - intros [= ->]. by exists [], l.
  - intros (before & after & -> & Hx & Hb)%IH.
    exists (y :: before), after. simpl. by rewrite Hy.
Qed.

(** Where message objects are pairwise distinct, the attachments go to
    the first user-role message and to no other. *)
Lemma threadMessages_distinct_objects `{Platform} before m after ups :
  NoDup (List.map ref (before ++ m :: after)) ->
  forallb (fun y => negb (has_role "user" y)) before = true ->
  has_role "user" m = true ->
  ups <> [] ->
  threadMessages (before ++ m :: after) ups =
    List.map (fun x => {| tm_role := role x; tm_content := content x;
                          tm_attachments := None |})
      (List.filter (fun x => negb (has_role "system" x)) before)
    ++ {| tm_role := role m; tm_content := content m;
          tm_attachments := Some (List.map up_id ups) |}
    :: List.map (fun x => {| tm_role := role x; tm_content := content x;
                             tm_attachments := None |})
         (List.filter (fun x => negb (has_role "system" x)) after).
Proof.
  intros Hnodup Hbefore Hm Hups.
  assert (Hfirst : List.find (has_role "user") (before ++ m :: after) = Some m).
  { clear Hnodup. induction before as [|b before IH]; simpl in *; [by rewrite Hm|].
    apply andb_true_iff in Hbefore as [Hb Hrest].
    apply negb_true_iff in Hb. rewrite Hb. auto. }
  assert (Hlen : (0 <? length ups)%nat = true) by (by destruct ups).
  assert (Hsys : has_role "system" m = false).
  { unfold has_role, is_str in *. destruct (role m); try done.
    apply String.eqb_eq in Hm as ->. done. }
  rewrite fmap_app, fmap_cons in Hnodup.
  apply NoDup_app in Hnodup as (_ & Hcross & Hn).
  apply NoDup_cons in Hn as [Hafter _].
  unfold threadMessages, is_first_user. rewrite Hfirst.
  rewrite List.filter_app, List.map_app. simpl. rewrite Hsys. simpl.
  unfold same_object at 2. rewrite Hm, Hlen, Nat.eqb_refl. simpl.
  f_equal; [|f_equal]; apply List.map_ext_in; intros x Hx;
    apply List.filter_In in Hx as [Hx _]; f_equal.
  - assert (Hne : ref x <> ref m).
    { intros Heq. apply (Hcross (ref x)).
      + apply list_elem_of_fmap. exists x. split; [done|]. by apply list_elem_of_In.
      + rewrite Heq. apply list_elem_of_here. }
    unfold same_object. apply Nat.eqb_neq in Hne. rewrite Hne.
    by rewrite andb_false_r.
  - assert (Hne : ref x <> ref m).
    { intros Heq. apply Hafter. rewrite <- Heq.
      apply list_elem_of_fmap. exists x. split; [done|]. by apply list_elem_of_In. }
    unfold same_object. apply Nat.eqb_neq in Hne. rewrite Hne.
    by rewrite andb_false_r.
Qed.

(** C5 on the code.  The message the caller passes is stored as the
    object it is, and the thread builder recognises the first user message
    by object identity: a user message object that was added twice is the
    first user message at both of its positions, and the uploaded files
    are attached at both. *)
Theorem fetch_attaches_files_to_every_alias :
  let m := msg 1 "user" "Analyze this dataset." in
  let w := snd (session (H := scripted completed_at_once)
                  [Add_message (One m); Add_message (One m);
                   Add_file (raw_text "notes.txt" "hello"); Do_fetch]
                  (start fresh)) in
  messages (client w) = [m; m] /\
  history w !! 2%nat =
    Some (Fetch (CreateThread
                   [{| tm_role := VStr "user";
                       tm_content := VStr "Analyze this dataset.";
                       tm_attachments := Some [VStr "file-1"] |};
                    {| tm_role := VStr "user";
                       tm_content := VStr "Analyze this dataset.";
                       tm_attachments := Some [VStr "file-1"] |}])).
Proof. by vm_compute. Qed.

(** ** File staging *)



(** How a source resolves to kind [json]: raw content with an explicit
    [file_type], or a path with an explicit [file_type] or a [.json]
    extension. *)
Lemma add_file_source_raw_json `{Platform} s fname :
  s <> "" -> fname <> "" ->
  add_file_source {| file_path := None; raw_file := VStr s;
                     file_name := Some fname; file_type := Some "json" |}
  = Return (fname, "json", VStr s).
Proof.
  intros Hs Hf. unfold add_file_source. simpl.
  apply String.eqb_neq in Hs, Hf. by rewrite Hs, Hf.
Qed.

Lemma add_file_source_path_json `{Platform} p s ftype :
  p <> "" -> existsSync p = true -> readFileSync p = Return s ->
  ftype = Some "json" \/
  ((ftype = None \/ ftype = Some "") /\ toLowerCase (extname p) = ".json") ->
  add_file_source {| file_path := Some p; raw_file := VUndefined;
                     file_name := None; file_type := ftype |}
  = Return (p, "json", VStr s).
Proof.
  intros Hp Hex Hread Hkind. unfold add_file_source. simpl.
  apply String.eqb_neq in Hp. rewrite Hp, Hex, Hread. simpl.
  destruct Hkind as [->|[[->| ->] ->]]; done.
Qed.

Example add_file_from_disk_rejects_malformed_json :
  add_file (H := scripted completed_at_once)
    {| file_path := Some "./broken.json"; raw_file := VUndefined;
       file_name := None; file_type := None |} asking
  = (Throw (Error "Invalid JSON content: Unexpected token o in JSON at position 1"),
     asking).
Proof. by vm_compute. Qed.

(** * Further properties of the methods *)

(** ** Construction *)

Lemma strip_trailing_slash_append s : strip_trailing_slash (s ++ "/") = s.
Proof.
  induction s as [|c rest IH]; [done|].
  change (String c rest ++ "/")%string with (String c (rest ++ "/")).
  cbn [strip_trailing_slash]. rewrite IH. by destruct rest.
Qed.

Lemma strip_trailing_slash_none s :
  (forall t, s <> (t ++ "/")%string) -> strip_trailing_slash s = s.
Proof.
  induction s as [|c rest IH]; intros Hno; [done|].
  cbn [strip_trailing_slash]. destruct rest as [|c' rest'].
  - destruct (Ascii.eqb c "/") eqn:Hc; [|done].
    apply Ascii.eqb_eq in Hc as ->. by destruct (Hno "").
  - rewrite IH; [done|]. intros t Ht. apply (Hno (String c t)). simpl. by rewrite Ht.
Qed.

Lemma strip_trailing_slash_empty s :
  strip_trailing_slash s = "" <-> s = "" \/ s = "/".
Proof.
  split.
  - destruct s as [|c [|c' rest]]; simpl; [auto | | done].
    destruct (Ascii.eqb c "/") eqn:Hc; [|done].
    apply Ascii.eqb_eq in Hc as ->. auto.
  - by intros [-> | ->].
Qed.

(** X2.  The trimming of the endpoint removes one trailing slash and
    nothing else: a text that ends in a slash loses exactly that slash
    (a second slash before it stays), and a text that does not end in a
    slash is kept as it is. *)
Theorem strip_trailing_slash_removes_one (s : string) :
  strip_trailing_slash (s ++ "/") = s /\
  ((forall t, s <> (t ++ "/")%string) -> strip_trailing_slash s = s) /\
  strip_trailing_slash ((s ++ "/") ++ "/") = (s ++ "/")%string.
Proof.
  split; [apply strip_trailing_slash_append|].
  split; [apply strip_trailing_slash_none | apply strip_trailing_slash_append].
Qed.

(** X1.  The constructor succeeds exactly when endpoint, API key and
    deployment name are all non-empty, and reports the first empty one in
    that order.  The instance it builds has no messages, no files, no
    identifiers, no result and the default options.  The emptiness check
    comes before the trimming, so the endpoint ["/"] is accepted and
    stored as the empty text; no other accepted endpoint is stored
    empty. *)
Theorem new_client_validates (cfg : AzureAIConfig) :
  (is_throw (new_client cfg) = false <->
   cfg_endpoint cfg <> "" /\ cfg_apiKey cfg <> "" /\ cfg_deploymentName cfg <> "") /\
  (cfg_endpoint cfg = "" -> new_client cfg = Throw (Error "Endpoint is required")) /\
  (cfg_endpoint cfg <> "" -> cfg_apiKey cfg = "" ->
   new_client cfg = Throw (Error "API key is required")) /\
  (cfg_endpoint cfg <> "" -> cfg_apiKey cfg <> "" -> cfg_deploymentName cfg = "" ->
   new_client cfg = Throw (Error "Deployment name is required")) /\
  (forall c, new_client cfg = Return c ->
     endpoint c = strip_trailing_slash (cfg_endpoint cfg) /\
     (endpoint c = "" <-> cfg_endpoint cfg = "/") /\
     messages c = [] /\ files c = [] /\
     assistantId c = VNull /\ threadId c = VNull /\
     _lastResponse c = None /\ options c = default_options).
Proof.
  unfold new_client.
  destruct (String.eqb_spec (cfg_endpoint cfg) "") as [He|He];
    [rewrite He; repeat split; try done; by intros [? _]|].
  destruct (String.eqb_spec (cfg_apiKey cfg) "") as [Hk|Hk];
    [rewrite Hk; repeat split; try done; by intros (_ & ? & _)|].
  destruct (String.eqb_spec (cfg_deploymentName cfg) "") as [Hd|Hd];
    [rewrite Hd; repeat split; try done; by intros (_ & _ & ?)|].
  split; [done|]. split; [done|]. split; [done|]. split; [done|].
  intros c [= <-]. simpl. split; [done|]. split; [|done].
  rewrite strip_trailing_slash_empty. split; [by intros [?|?] | auto].
Qed.

(** ** The store *)

Lemma add_message_returns_iff a c :
  is_throw (fst (add_message a c)) = false <->
  forallb valid_message (messageArray a) = true.
Proof.
  unfold add_message. rewrite add_message_loop_eq. simpl.
  induction (messageArray a) as [|m rest IH]; simpl; [done|].
  destruct (valid_message m); simpl; [done|].
  by destruct (negb (truthy (role m)) || negb (truthy (content m))).
Qed.

(** ** [add_message] on the array it is pushing to *)

Lemma valid_message_checks m :
  valid_message m = true ->
  negb (truthy (role m)) || negb (truthy (content m)) = false /\
  negb (role_included (role m)) = false.
Proof.
  unfold valid_message. intros Hm.
  apply andb_true_iff in Hm as [Hm ->]. apply andb_true_iff in Hm as [-> ->]. done.
Qed.

Lemma invalid_message_throws m fuel i arr c :
  arg_lookup arr c i = Some m ->
  valid_message m = false ->
  exists e,
    (e = err_message_fields \/ e = err_message_role) /\
    add_message_iter (S fuel) i arr c = Some (Throw e, c).
Proof.
  intros Hm Hbad. simpl. rewrite Hm. unfold valid_message in Hbad.
  destruct (truthy (role m)), (truthy (content m)), (role_included (role m));
    simpl in *; try done; eauto.
Qed.

(** Over an array of the caller's the iterator is the loop over the
    elements from index [i] on. *)
Lemma add_message_iter_own ms i fuel c :
  length ms - i < fuel ->
  add_message_iter fuel i (Own ms) c = Some (add_message_loop (drop i ms) c).
Proof.
  revert i c. induction fuel as [|fuel IH]; intros i c Hfuel; [lia|].
  simpl. destruct (ms !! i) as [m|] eqn:Hm.
  - rewrite (drop_S _ _ _ Hm). simpl.
    destruct (negb (truthy (role m)) || negb (truthy (content m))); [done|].
    destruct (negb (role_included (role m))); [done|].
    apply IH. apply lookup_lt_Some in Hm. lia.
  - apply lookup_ge_None in Hm. by rewrite drop_ge.
Qed.

(** Over the array of the store the iterator never reaches the end once
    it has found an element: every push moves the end one further. *)
Lemma add_message_iter_store_runs fuel i c :
  i < length (messages c) ->
  forallb valid_message (messages c) = true ->
  add_message_iter fuel i Store c = None.
Proof.
  revert i c. induction fuel as [|fuel IH]; intros i c Hi Hvalid; [done|].
  simpl. destruct (messages c !! i) as [m|] eqn:Hm.
  2: { apply lookup_ge_None in Hm. lia. }
  assert (Hvm : valid_message m = true).
  { rewrite forallb_forall in Hvalid. apply Hvalid.
    apply list_elem_of_In. by eapply list_elem_of_lookup_2. }
  destruct (valid_message_checks m Hvm) as [-> ->].
  apply IH; simpl.
  - rewrite length_app. simpl. lia.
  - by rewrite forallb_app, Hvalid; simpl; rewrite Hvm.
Qed.

Lemma valid_prefix_lookup ms i m :
  valid_prefix ms !! i = Some m -> ms !! i = Some m /\ valid_message m = true.
Proof.
  revert i. induction ms as [|x rest IH]; intros i; simpl; [done|].
  destruct (valid_message x) eqn:Hx; [|done].
  destruct i as [|i]; simpl; [by intros [= <-] | apply IH].
Qed.

Lemma valid_prefix_stops ms :
  forallb valid_message ms = false ->
  exists bad, ms !! length (valid_prefix ms) = Some bad /\ valid_message bad = false.
Proof.
  induction ms as [|x rest IH]; simpl; [done|].
  destruct (valid_message x) eqn:Hx; simpl; eauto.
Qed.

(** Over the array of the store, with an element that fails a check: the
    iterator pushes copies of the elements before it and throws there. *)
Lemma add_message_iter_store_throws ms fuel i c :
  forallb valid_message ms = false ->
  i <= length (valid_prefix ms) ->
  messages c = ms ++ take i (valid_prefix ms) ->
  length (valid_prefix ms) - i < fuel ->
  exists e,
    (e = err_message_fields \/ e = err_message_role) /\
    add_message_iter fuel i Store c
    = Some (Throw e, set_messages (ms ++ valid_prefix ms) c).
Proof.
  intros Hbad. revert i c.
  induction fuel as [|fuel IH]; intros i c Hi Hstore Hfuel; [lia|].
  destruct (decide (i = length (valid_prefix ms))) as [->|Hne].
  - destruct (valid_prefix_stops ms Hbad) as (bad & Hlook & Hinv).
    destruct (invalid_message_throws bad fuel (length (valid_prefix ms)) Store c)
      as (e & He & Hrun); [|done|].
    { simpl. rewrite Hstore. by apply lookup_app_l_Some. }
    exists e. split; [done|]. rewrite Hrun. do 2 f_equal.
    rewrite firstn_all in Hstore. rewrite <- Hstore. by rewrite set_messages_same.
  - destruct (valid_prefix ms !! i) as [m|] eqn:Hm.
    2: { apply lookup_ge_None in Hm. lia. }
    destruct (valid_prefix_lookup _ _ _ Hm) as [Hlook Hvm].
    destruct (valid_message_checks m Hvm) as [Hf Hr].
    destruct (IH (S i) (set_messages (messages c ++ [m]) c)) as (e & He & Hrun).
    + lia.
    + simpl. rewrite Hstore, <- app_assoc. f_equal.
      by rewrite (take_S_r _ _ _ Hm).
    + lia.
    + exists e. split; [done|]. simpl.
      assert (Hread : messages c !! i = Some m).
      { rewrite Hstore. by apply lookup_app_l_Some. }
      rewrite Hread, Hf, Hr. rewrite Hrun. by rewrite set_messages_twice.
Qed.

(** X3.  Called with one message or with an array of the caller's own,
    [add_message] walks that array once: it returns exactly when every
    element passes both checks, and then has appended the elements in
    their order after the stored ones and changed nothing else, so
    [get_state] shows the old messages followed by the new ones; adding a
    batch whose first part is valid has the effect of adding that part
    and then the rest in a second call.  Called with the array of the
    store itself (the one [get_state] hands out), the loop reads the
    array it is pushing to: on an empty store it returns at once; on a
    non-empty store of valid messages it never returns, however many
    iterations it is given; on a store with an element that fails a check
    it throws at that element after appending a copy of every element
    before it. *)
Theorem add_message_valid_appends (a : MessageArg) (c : Client) :
  (forall fuel,
      length (messageArray a) < fuel ->
      add_message_iter fuel 0 (Own (messageArray a)) c = Some (add_message a c)) /\
  (is_throw (fst (add_message a c)) = false <->
   forallb valid_message (messageArray a) = true) /\
  (forallb valid_message (messageArray a) = true ->
   add_message a c = (Return tt, set_messages (messages c ++ messageArray a) c) /\
   st_messages (get_state (snd (add_message a c)))
     = st_messages (get_state c) ++ messageArray a) /\
  (forall ms1 ms2,
      forallb valid_message ms1 = true ->
      add_message (Many (ms1 ++ ms2)) c
      = add_message (Many ms2) (snd (add_message (Many ms1) c))) /\
  (messages c = [] ->
   forall fuel, add_message_iter (S fuel) 0 Store c = Some (Return tt, c)) /\
  (messages c <> [] ->
   forallb valid_message (messages c) = true ->
   forall fuel, add_message_iter fuel 0 Store c = None) /\
  (forallb valid_message (messages c) = false ->
   forall fuel,
     length (messages c) <= fuel ->
     exists e,
       (e = err_message_fields \/ e = err_message_role) /\
       add_message_iter fuel 0 Store c
       = Some (Throw e,
               set_messages (messages c ++ valid_prefix (messages c)) c)).
Proof.
  split; [|split; [|split; [|split; [|split; [|split]]]]].
  - intros fuel Hfuel. unfold add_message.
    rewrite add_message_iter_own by lia. by rewrite drop_0.
  - apply add_message_returns_iff.
  - intros Hvalid. unfold add_message. rewrite add_message_loop_eq.
    rewrite (valid_prefix_all _ Hvalid). simpl. split; [|done]. f_equal.
    clear c. induction (messageArray a) as [|m rest IH]; simpl in *; [done|].
    destruct (valid_message m); simpl in *; [auto | done].
  - intros ms1 ms2 Hvalid. unfold add_message. simpl.
    revert c. induction ms1 as [|m rest IH]; intros c; simpl in *; [done|].
    apply andb_true_iff in Hvalid as [Hm Hrest].
    destruct (valid_message_checks m Hm) as [-> ->]. by apply IH.
  - intros Hempty fuel. simpl. by rewrite Hempty.
  - intros Hne Hvalid fuel. apply add_message_iter_store_runs; [|done].
    destruct (messages c); [done | simpl; lia].
  - intros Hbad fuel Hfuel.
    apply (add_message_iter_store_throws (messages c)); [done | lia | | ].
    + simpl. by rewrite app_nil_r.
    + destruct (valid_prefix_stops _ Hbad) as (bad & Hlook & _).
      apply lookup_lt_Some in Hlook. lia.
Qed.

(** The loop on the array of a store of one valid message is still
    running after a thousand iterations; with an element that fails a
    check in second place it throws, having doubled the first. *)
Example add_message_on_own_store :
  add_message_iter 1000 0 Store asking = None /\
  add_message_iter 3 0 Store
    (set_messages [msg 1 "user" "hi"; msg 2 "tool" "x"] fresh)
  = Some (Throw err_message_role,
          set_messages [msg 1 "user" "hi"; msg 2 "tool" "x"; msg 1 "user" "hi"] fresh).
Proof. split; by vm_compute. Qed.

Lemma add_message_valid_appends_witness :
  add_message_iter 1000 0 Store asking = None /\
  add_message (Many [msg 2 "assistant" "hello"; msg 3 "user" "more"]) asking
  = (Return tt,
     set_messages [msg 1 "user" "hi"; msg 2 "assistant" "hello"; msg 3 "user" "more"]
       fresh).
Proof.
  destruct (add_message_valid_appends
              (Many [msg 2 "assistant" "hello"; msg 3 "user" "more"]) asking)
    as (_ & _ & Happend & _ & _ & Hruns & _).
  split.
  - apply Hruns; [discriminate | reflexivity].
  - exact (proj1 (Happend eq_refl)).
Defined.

(** X4.  [set_options] merges: after the call a key of the argument has
    the argument's value and every other key keeps its value.  Two calls
    in a row amount to one call with the second argument laid over the
    first, the empty argument changes nothing, and the call touches no
    other field. *)
Theorem set_options_merges (o1 o2 : gmap string value) (c : Client) (k : string) :
  options (set_options o1 c) !! k
    = match o1 !! k with Some v => Some v | None => options c !! k end /\
  set_options o2 (set_options o1 c) = set_options (o2 ∪ o1) c /\
  set_options ∅ c = c /\
  messages (set_options o1 c) = messages c /\
  files (set_options o1 c) = files c /\
  assistantId (set_options o1 c) = assistantId c /\
  threadId (set_options o1 c) = threadId c /\
  _lastResponse (set_options o1 c) = _lastResponse c.
Proof.
  split.
  { unfold set_options. simpl. rewrite lookup_union.
    by destruct (o1 !! k), (options c !! k). }
  split.
  { unfold set_options, set_options_field. simpl. by rewrite (assoc_L (∪)). }
  split; [|done].
  unfold set_options, set_options_field. rewrite (left_id_L ∅ (∪)). by destruct c.
Qed.

(** The two defaults survive an update of another key, and both updates
    of the example of the documentation are there afterwards. *)
Example set_options_keeps_defaults :
  let c := set_options {["max_tokens" := VNum 100]}
             (set_options {["temperature" := VNum 0.2]} fresh) in
  options c !! "temperature" = Some (VNum 0.2) /\
  options c !! "max_tokens" = Some (VNum 100) /\
  options (set_options {["top_p" := VNum 1]} fresh) !! "temperature" = Some (VNum 0.7).
Proof. by vm_compute. Qed.

(** ** File staging *)

Section Staging.
Context `{Platform}.

(** The kind [add_file] gives a file when [file_type] is absent or empty. *)
Lemma add_file_source_shape fileConfig pathStr type raw :
  add_file_source fileConfig = Return (pathStr, type, raw) ->
  type = str_or (file_type fileConfig)
           (if truthy (raw_file fileConfig) then "text"
            else if String.eqb (toLowerCase (extname pathStr)) ".json"
                 then "json" else "text") /\
  (if truthy (raw_file fileConfig)
   then file_name fileConfig = Some pathStr /\ raw = raw_file fileConfig
   else file_path fileConfig = Some pathStr /\ existsSync pathStr = true /\
        exists s, readFileSync pathStr = Return s /\ raw = VStr s) /\
  pathStr <> "".
Proof.
  unfold add_file_source. destruct (truthy (raw_file fileConfig)).
  - destruct (file_name fileConfig) as [fname|]; [|done].
    destruct (String.eqb_spec fname ""); [done|]. by intros [= <- <- <-].
  - destruct (file_path fileConfig) as [p|]; [|done].
    destruct (String.eqb_spec p ""); [done|].
    destruct (existsSync p) eqn:Hex; [|done]. simpl.
    destruct (readFileSync p) as [s|e] eqn:Hread; [|done].
    intros [= <- <- <-]. rewrite Hex, Hread.
    split; [|split; [by eauto|done]].
    by destruct (String.eqb (toLowerCase (extname p)) ".json"),
                (String.eqb (toLowerCase (extname p)) ".txt").
Qed.

(** X5.  [add_file] is all or one: when it throws, whatever the reason
    (no source, missing name, missing file, unreadable file, malformed
    JSON), the instance is exactly as before; when it returns, exactly
    one file has been appended after the staged ones and no other field
    has changed, and [get_state] lists the new file last, by path and
    kind. *)
Theorem add_file_all_or_one (fileConfig : FileConfig) (c : Client) :
  match add_file fileConfig c with
  | (Throw _, c') => c' = c
  | (Return _, c') =>
      exists f,
        c' = set_files (files c ++ [f]) c /\
        st_files (get_state c') = st_files (get_state c) ++ [(path f, type f)] /\
        st_messages (get_state c') = st_messages (get_state c)
  end.
Proof.
  unfold add_file.
  destruct (add_file_source fileConfig) as [[[pathStr type] raw]|e]; [|done].
  destruct (add_file_content type raw) as [content|e]; [|done].
  eexists. split; [done|]. simpl. by rewrite map_app.
Qed.

(** X6.  How a staged file gets its kind and content.  An explicit,
    non-empty [file_type] wins; without it raw content is [text], and a
    file from disk is [json] exactly when its lower-cased extension is
    [.json].  The path is the given name (raw content) or the given path
    (disk).  A file of any kind but [json] keeps its raw content as
    content; a [json] file whose raw content is a string holds what
    [JSON.parse] returned for it, and one whose raw content is not a
    string holds it unparsed. *)
Theorem add_file_kind_and_content (fileConfig : FileConfig) (c c' : Client) :
  add_file fileConfig c = (Return tt, c') ->
  exists f,
    files c' = files c ++ [f] /\
    type f = str_or (file_type fileConfig)
               (if truthy (raw_file fileConfig) then "text"
                else if String.eqb (toLowerCase (extname (path f))) ".json"
                     then "json" else "text") /\
    (if truthy (raw_file fileConfig)
     then file_name fileConfig = Some (path f) /\ rawContent f = raw_file fileConfig
     else file_path fileConfig = Some (path f) /\
          readFileSync (path f) = Return (match rawContent f with
                                          | VStr s => s
                                          | _ => ""
                                          end)) /\
    (type f <> "json" -> file_content f = rawContent f) /\
    (type f = "json" ->
     match rawContent f with
     | VStr s => JSON_parse s = Return (file_content f)
     | raw => file_content f = raw
     end).
Proof.
  unfold add_file.
  destruct (add_file_source fileConfig) as [[[pathStr type] raw]|e] eqn:Hsrc; [|done].
  destruct (add_file_content type raw) as [content|e] eqn:Hcontent; [|done].
  intros [= <-]. eexists. split; [done|]. simpl.
  apply add_file_source_shape in Hsrc as (Htype & Hraw & _).
  split; [done|]. split.
  { destruct (truthy (raw_file fileConfig)); [done|].
    destruct Hraw as (Hp & _ & s & Hread & ->). done. }
  unfold add_file_content in Hcontent. split.
  - intros Hne. apply String.eqb_neq in Hne. rewrite Hne in Hcontent. by injection Hcontent.
  - intros Hjson. rewrite Hjson in Hcontent. simpl in Hcontent.
    destruct raw as [| | | |s| |]; try by injection Hcontent.
    by destruct (JSON_parse s) as [v|e]; [injection Hcontent as -> |].
Qed.

(** X7.  The source of a file is chosen by truthiness.  Raw content that
    is the empty string counts as absent: the call behaves as if
    [raw_file] had not been given (it reads [file_path], or fails for
    want of a source).  Truthy raw content wins over a path, and then a
    missing or empty [file_name] fails the call even when the path
    names an existing file.  A path that does not exist fails with the
    path in the message. *)
Theorem add_file_source_choice (p n t : option string) (c : Client) :
  add_file {| file_path := p; raw_file := VStr ""; file_name := n; file_type := t |} c
  = add_file {| file_path := p; raw_file := VUndefined; file_name := n; file_type := t |} c
  /\
  (forall raw,
      truthy raw = true -> n = None \/ n = Some "" ->
      add_file {| file_path := p; raw_file := raw; file_name := n; file_type := t |} c
      = (Throw (Error "file_name is required when using raw_file"), c)) /\
  (forall raw,
      truthy raw = false -> p = None \/ p = Some "" ->
      add_file {| file_path := p; raw_file := raw; file_name := n; file_type := t |} c
      = (Throw (Error "Either raw_file or file_path must be provided"), c)) /\
  (forall raw pathStr,
      truthy raw = false -> p = Some pathStr -> pathStr <> "" ->
      existsSync pathStr = false ->
      add_file {| file_path := p; raw_file := raw; file_name := n; file_type := t |} c
      = (Throw (Error ("File not found: " ++ pathStr)), c)).
Proof.
  split; [done|]. split; [|split].
  - intros raw Hraw Hn. unfold add_file, add_file_source. simpl. rewrite Hraw.
    by destruct Hn as [-> | ->].
  - intros raw Hraw Hp. unfold add_file, add_file_source. simpl. rewrite Hraw.
    by destruct Hp as [-> | ->].
  - intros raw pathStr Hraw -> Hne Hex. unfold add_file, add_file_source. simpl.
    rewrite Hraw, Hex. apply String.eqb_neq in Hne. by rewrite Hne.
Qed.

End Staging.

Lemma add_file_kind_and_content_witness :
  add_file (H := scripted completed_at_once)
    {| file_path := Some "./data.json"; raw_file := VUndefined;
       file_name := None; file_type := None |} asking
  = (Return tt,
     set_files [{| path := "./data.json"; type := "json";
                   file_content := VObj []; rawContent := VStr "{}" |}] asking) /\
  exists f,
    files (set_files [{| path := "./data.json"; type := "json";
                         file_content := VObj []; rawContent := VStr "{}" |}] asking)
      = files asking ++ [f] /\
    type f = "json".
Proof.
  assert (Hrun : add_file (H := scripted completed_at_once)
                   {| file_path := Some "./data.json"; raw_file := VUndefined;
                      file_name := None; file_type := None |} asking
                 = (Return tt,
                    set_files [{| path := "./data.json"; type := "json";
                                  file_content := VObj []; rawContent := VStr "{}" |}]
                      asking)) by reflexivity.
  split; [exact Hrun|].
  destruct (add_file_kind_and_content (H := scripted completed_at_once) _ _ _ Hrun)
    as (f & Hfiles & Htype & _).
  exists f. split; [exact Hfiles|].
  injection Hfiles as <-. reflexivity.
Defined.

(** ** From staging to upload *)

(** X9.  What is uploaded for a file that [add_file] staged.  A file of
    a kind other than [json] whose raw content is a string is sent with
    exactly that string.  A [json] file is sent re-serialised, as the
    indented JSON text of its parsed content, except when the parsed
    content is itself a string: then that bare string is sent, without
    quotes. *)
Theorem staged_file_as_uploaded `{Platform}
    (fileConfig : FileConfig) (c c' : Client) :
  add_file fileConfig c = (Return tt, c') ->
  exists f,
    files c' = files c ++ [f] /\
    (type f <> "json" ->
     forall s, rawContent f = VStr s -> upload_contentStr f = s) /\
    (type f = "json" ->
     forall s v, rawContent f = VStr s -> JSON_parse s = Return v ->
       upload_contentStr f = match v with
                             | VStr t => t
                             | _ => JSON_stringify_indent v
                             end).
Proof.
  unfold add_file.
  destruct (add_file_source fileConfig) as [[[pathStr type] raw]|e]; [|done].
  destruct (add_file_content type raw) as [content|e] eqn:Hcontent; [|done].
  intros [= <-]. eexists. split; [done|]. unfold upload_contentStr. simpl.
  unfold add_file_content in Hcontent. split.
  - intros Hne s ->. apply String.eqb_neq in Hne. by rewrite Hne.
  - intros -> s v -> Hparse. simpl in *. rewrite Hparse in Hcontent.
    injection Hcontent as <-. by destruct v.
Qed.

Lemma staged_file_as_uploaded_witness :
  add_file (H := scripted completed_at_once) (raw_text "notes.txt" "hello") asking
  = (Return tt,
     set_files [{| path := "notes.txt"; type := "text"; file_content := VStr "hello";
                   rawContent := VStr "hello" |}] asking) /\
  exists f,
    files (set_files [{| path := "notes.txt"; type := "text";
                         file_content := VStr "hello";
                         rawContent := VStr "hello" |}] asking)
    = files asking ++ [f] /\
    (type f <> "json" ->
     forall s, rawContent f = VStr s ->
               upload_contentStr (H := scripted completed_at_once) f = s).
Proof.
  assert (Hrun : add_file (H := scripted completed_at_once)
                   (raw_text "notes.txt" "hello") asking
                 = (Return tt,
                    set_files [{| path := "notes.txt"; type := "text";
                                  file_content := VStr "hello";
                                  rawContent := VStr "hello" |}] asking))
    by reflexivity.
  split; [exact Hrun|].
  destruct (staged_file_as_uploaded (H := scripted completed_at_once) _ _ _ Hrun)
    as (f & Hfiles & Htext & _).
  exists f. split; [exact Hfiles | exact Htext].
Defined.

(** ** What each step of a run sends *)

Lemma set_assistantId_same c : set_assistantId (assistantId c) c = c.
Proof. by destruct c. Qed.

Lemma set_threadId_same c : set_threadId (threadId c) c = c.
Proof. by destruct c. Qed.

Lemma world_eta w : {| client := client w; history := history w |} = w.
Proof. by destruct w. Qed.

Section Traces.
Context `{Platform}.

Lemma _uploadFiles_loop_trace todo acc w :
  client (snd (_uploadFiles_loop todo acc w)) = client w /\
  exists k,
    k <= length todo /\
    history (snd (_uploadFiles_loop todo acc w))
      = history w ++ List.map upload_event (take k todo) /\
    match fst (_uploadFiles_loop todo acc w) with
    | Return ups =>
        k = length todo /\
        List.map (fun u => (up_path u, up_type u)) ups
        = List.map (fun u => (up_path u, up_type u)) acc
          ++ List.map (fun f => (path f, type f)) todo
    | Throw _ => 1 <= k
    end.
Proof.
  revert acc w. induction todo as [|file rest IH]; intros acc w; simpl.
  - split; [done|]. exists 0. simpl. by rewrite !app_nil_r.
  - unfold bind, call, throw, lift.
    assert (Hone : forall r : Completion (list UploadedFile),
               is_throw r = true ->
               client (log (Fetch (upload_request file)) w) = client w /\
               exists k, k <= S (length rest) /\
                 history (log (Fetch (upload_request file)) w)
                 = history w ++ List.map upload_event (take k (file :: rest)) /\
                 match r with Return _ => False | Throw _ => 1 <= k end).
    { intros r Hr. split; [done|]. exists 1. split; [lia|]. split; [done|].
      by destruct r. }
    destruct (_fetch (history w) (upload_request file)) as [response|e];
      cbn [fst snd]; [|by destruct (Hone (Throw e) eq_refl) as [? (k & ? & ? & ?)]; eauto].
    destruct (negb (ok response)); cbn [fst snd];
      [destruct (Hone (Throw (http_error "File upload failed" response)) eq_refl)
         as [? (k & ? & ? & ?)]; eauto|].
    destruct (json response) as [fileData|e]; cbn [fst snd];
      [|by destruct (Hone (Throw e) eq_refl) as [? (k & ? & ? & ?)]; eauto].
    destruct (prop fileData "id") as [fid|e]; cbn [fst snd];
      [|by destruct (Hone (Throw e) eq_refl) as [? (k & ? & ? & ?)]; eauto].
    destruct (IH (acc ++ [{| up_id := fid; up_path := path file; up_type := type file |}])
                (log (Fetch (upload_request file)) w)) as [Hc (k & Hk & Hh & Hr)].
    split; [by rewrite Hc|]. exists (S k). split; [lia|]. split.
    + rewrite Hh. simpl. by rewrite <- app_assoc.
    + destruct (fst (_uploadFiles_loop rest _ _)) as [ups|e]; [|lia].
      destruct Hr as [-> Hr]. split; [done|].
      rewrite Hr, map_app. simpl. by rewrite <- app_assoc.
Qed.

Lemma uploadFiles_trace_aux w :
  client (snd (_uploadFiles w)) = client w /\
  exists k,
    k <= length (files (client w)) /\
    history (snd (_uploadFiles w))
      = history w ++ List.map upload_event (take k (files (client w))) /\
    match fst (_uploadFiles w) with
    | Return ups =>
        k = length (files (client w)) /\
        length ups = length (files (client w)) /\
        List.map (fun u => (up_path u, up_type u)) ups
        = List.map (fun f => (path f, type f)) (files (client w))
    | Throw _ => 1 <= k
    end.
Proof.
  unfold _uploadFiles, bind, this.
  destruct (_uploadFiles_loop_trace (files (client w)) [] w) as [Hc (k & Hk & Hh & Hr)].
  split; [done|]. exists k. split; [done|]. split; [done|].
  destruct (fst (_uploadFiles_loop _ _ _)) as [ups|e]; [|done].
  destruct Hr as [-> Hr]. simpl in Hr. split; [done|]. split; [|exact Hr].
  apply (f_equal length) in Hr. by rewrite !length_map in Hr.
Qed.

Lemma _getOrCreateAssistant_trace w :
  history (snd (_getOrCreateAssistant w))
    = history w ++ (if truthy (assistantId (client w)) then []
                    else [Fetch (assistant_request (client w))]) /\
  match fst (_getOrCreateAssistant w) with
  | Return aid => client (snd (_getOrCreateAssistant w)) = set_assistantId aid (client w)
  | Throw _ => client (snd (_getOrCreateAssistant w)) = client w
  end.
Proof.
  unfold _getOrCreateAssistant, bind, this, call, lift, update, ret, throw.
  cbn [fst snd]. fold (assistant_request (client w)).
  destruct (truthy (assistantId (client w))); cbn [fst snd].
  { by rewrite app_nil_r, set_assistantId_same. }
  destruct (_fetch _ _) as [response|e]; cbn [fst snd]; [|done].
  destruct (negb (ok response)); cbn [fst snd]; [done|].
  destruct (json response) as [assistant|e]; cbn [fst snd]; [|done].
  destruct (prop assistant "id") as [aid|e]; cbn [fst snd]; done.
Qed.

Lemma _getOrCreateThread_trace ups w :
  history (snd (_getOrCreateThread ups w))
    = history w ++ (if truthy (threadId (client w)) then []
                    else [Fetch (CreateThread (threadMessages (messages (client w)) ups))]) /\
  match fst (_getOrCreateThread ups w) with
  | Return tid => client (snd (_getOrCreateThread ups w)) = set_threadId tid (client w)
  | Throw _ => client (snd (_getOrCreateThread ups w)) = client w
  end.
Proof.
  unfold _getOrCreateThread, bind, this, call, lift, update, ret, throw.
  cbn [fst snd].
  destruct (truthy (threadId (client w))); cbn [fst snd].
  { by rewrite app_nil_r, set_threadId_same. }
  destruct (_fetch _ _) as [response|e]; cbn [fst snd]; [|done].
  destruct (negb (ok response)); cbn [fst snd]; [done|].
  destruct (json response) as [thread|e]; cbn [fst snd]; [|done].
  destruct (prop thread "id") as [tid|e]; cbn [fst snd]; done.
Qed.

Lemma poll_trace left runId w :
  client (snd (poll left runId w)) = client w /\
  exists n,
    (n = left /\ fst (poll left runId w) = Throw err_timed_out /\
     history (snd (poll left runId w)) = history w ++ rounds n (client w) runId) \/
    (n < left /\
     history (snd (poll left runId w))
       = history w ++ rounds n (client w) runId
         ++ [Fetch (GetRun (threadId (client w)) runId)]).
Proof.
  revert w. induction left as [|left IH]; intros w.
  - split; [done|]. exists 0. left. unfold rounds. simpl. by rewrite app_nil_r.
  - cbn [poll]. unfold bind, this, call, lift, throw, ret, sleep. cbn [fst snd].
    assert (Hend : client (log (Fetch (GetRun (threadId (client w)) runId)) w) = client w /\
                   exists n, n < S left /\
                     history (log (Fetch (GetRun (threadId (client w)) runId)) w)
                     = history w ++ rounds n (client w) runId
                       ++ [Fetch (GetRun (threadId (client w)) runId)]).
    { split; [done|]. exists 0. split; [lia | done]. }
    destruct Hend as [Hc (n0 & Hn0 & Hh0)].
    destruct (_fetch _ _) as [response|e]; cbn [fst snd]; [|split; eauto].
    destruct (negb (ok response)); cbn [fst snd]; [split; eauto|].
    destruct (json response) as [run|e]; cbn [fst snd]; [|split; eauto].
    destruct (prop run "status") as [st|e]; cbn [fst snd]; [|split; eauto].
    destruct (is_str "completed" st); cbn [fst snd]; [split; eauto|].
    destruct (failure_status st); cbn [fst snd]; [split; eauto|].
    set (w1 := log (Sleep 5000) (log (Fetch (GetRun (threadId (client w)) runId)) w)).
    destruct (IH w1) as [Hc1 (n & Hn)].
    split; [by rewrite Hc1|]. exists (S n).
    assert (Hround : forall tail,
               history w1 ++ rounds n (client w1) runId ++ tail
               = history w ++ rounds (S n) (client w) runId ++ tail).
    { intros tail. unfold w1, rounds, poll_round. simpl. by rewrite <- !app_assoc. }
    destruct Hn as [(-> & Hr & Hh)|(Hlt & Hh)].
    + left. split; [done|]. split; [done|].
      rewrite Hh. specialize (Hround []). by rewrite !app_nil_r in Hround.
    + right. split; [lia|]. rewrite Hh. apply Hround.
Qed.

Lemma _getMessages_trace w :
  snd (_getMessages w) = log (Fetch (ListMessages (threadId (client w)))) w.
Proof.
  unfold _getMessages, bind, this, call, lift, throw, ret. cbn [fst snd].
  destruct (_fetch _ _) as [response|e]; cbn [fst snd]; [|done].
  destruct (negb (ok response)); cbn [fst snd]; [done|].
  destruct (json response) as [msgs|e]; cbn [fst snd]; [|done].
  by destruct (prop msgs "data").
Qed.

Lemma cleanup_trace ups w :
  history (snd (cleanup ups w)) = history w ++ List.map delete_event ups.
Proof.
  revert w. induction ups as [|f rest IH]; intros w; simpl.
  - by rewrite app_nil_r.
  - unfold bind, detached. rewrite IH. simpl. by rewrite <- app_assoc.
Qed.

End Traces.

(** ** Uploads, by what the remote answers *)

Section Uploads.
Context `{Platform}.
Local Open Scope async_scope.

(** Uploads the remote accepts are recorded with the identifiers it gave,
    and the loop goes on with the rest. *)
Lemma _uploadFiles_loop_accepted fs ids rest acc w :
  uploads_accepted (history w) fs ids ->
  _uploadFiles_loop (fs ++ rest) acc w
  = _uploadFiles_loop rest (acc ++ uploaded fs ids)
      {| client := client w; history := history w ++ List.map upload_event fs |}.
Proof.
  revert ids acc w. induction fs as [|f fs IH]; intros ids acc w Hacc.
  - destruct ids; [|done]. simpl. by rewrite !app_nil_r, world_eta.
  - destruct ids as [|fid ids]; [done|].
    destruct Hacc as [(response & fileData & Hfetch & Hok & Hjson & Hid) Hrest].
    cbn [app _uploadFiles_loop]. unfold bind at 1. unfold call at 1.
    rewrite Hfetch, Hok. cbn [negb]. unfold bind at 1. unfold lift at 1.
    rewrite Hjson. unfold bind at 1. unfold lift at 1. rewrite Hid.
    rewrite (IH ids); [|exact Hrest].
    simpl. unfold upload_event. by rewrite <- !app_assoc.
Qed.

(** X8.  [_uploadFiles] sends the staged files one request after the
    other in staged order, and what it does next is decided by the
    remote's answer to each request.  While the remote accepts, it goes
    on; when every upload is accepted it returns one record per staged
    file, in staged order, with the identifier the remote gave for that
    file and the file's path and kind.  The first answer that is not
    [ok] stops the loop: the call throws the upload error made of that
    answer's status and text, no later file is sent, and nothing is
    deleted; a request that fails outright stops it in the same way with
    the error of the transport.  The instance is never touched. *)
Theorem uploadFiles_in_staged_order (w : World) :
  client (snd (_uploadFiles w)) = client w /\
  (forall ids,
      uploads_accepted (history w) (files (client w)) ids ->
      _uploadFiles w
      = (Return (uploaded (files (client w)) ids),
         {| client := client w;
            history := history w ++ List.map upload_event (files (client w)) |})) /\
  (forall sent ids file rest response,
      files (client w) = sent ++ file :: rest ->
      uploads_accepted (history w) sent ids ->
      _fetch (history w ++ List.map upload_event sent) (upload_request file)
        = Return response ->
      ok response = false ->
      _uploadFiles w
      = (Throw (http_error "File upload failed" response),
         {| client := client w;
            history := history w ++ List.map upload_event (sent ++ [file]) |})) /\
  (forall sent ids file rest e,
      files (client w) = sent ++ file :: rest ->
      uploads_accepted (history w) sent ids ->
      _fetch (history w ++ List.map upload_event sent) (upload_request file) = Throw e ->
      _uploadFiles w
      = (Throw e,
         {| client := client w;
            history := history w ++ List.map upload_event (sent ++ [file]) |})) /\
  match fst (_uploadFiles w) with
  | Return ups =>
      history (snd (_uploadFiles w))
        = history w ++ List.map upload_event (files (client w)) /\
      length ups = length (files (client w)) /\
      List.map (fun u => (up_path u, up_type u)) ups
      = List.map (fun f => (path f, type f)) (files (client w))
  | Throw _ =>
      exists k,
        1 <= k <= length (files (client w)) /\
        history (snd (_uploadFiles w))
          = history w ++ List.map upload_event (take k (files (client w)))
  end.
Proof.
  destruct (uploadFiles_trace_aux w) as [Hc (k & Hk & Hh & Hr)].
  split; [done|].
  assert (Hstop : forall sent ids file rest,
             files (client w) = sent ++ file :: rest ->
             uploads_accepted (history w) sent ids ->
             _uploadFiles w
             = (let* response := call (upload_request file) in
                if negb (ok response) then throw (http_error "File upload failed" response)
                else
                  let* fileData := lift (json response) in
                  let* fid := lift (prop fileData "id") in
                  _uploadFiles_loop rest
                    (uploaded sent ids
                     ++ [{| up_id := fid; up_path := path file; up_type := type file |}]))
                 {| client := client w;
                    history := history w ++ List.map upload_event sent |}).
  { intros sent ids file rest Hfiles Hacc. unfold _uploadFiles, bind at 1, this.
    rewrite Hfiles, (_uploadFiles_loop_accepted sent ids (file :: rest) [] w Hacc).
    done. }
  split; [|split; [|split]].
  - intros ids Hacc. unfold _uploadFiles, bind, this.
    rewrite <- (app_nil_r (files (client w))) at 1.
    by rewrite (_uploadFiles_loop_accepted _ ids [] [] w Hacc).
  - intros sent ids file rest response Hfiles Hacc Hfetch Hok.
    rewrite (Hstop sent ids file rest Hfiles Hacc).
    unfold bind, call, throw. cbn [history client]. rewrite Hfetch, Hok. simpl.
    unfold log. simpl. by rewrite map_app, <- app_assoc.
  - intros sent ids file rest e Hfiles Hacc Hfetch.
    rewrite (Hstop sent ids file rest Hfiles Hacc).
    unfold bind, call. cbn [history client]. rewrite Hfetch.
    unfold log. simpl. by rewrite map_app, <- app_assoc.
  - destruct (fst (_uploadFiles w)) as [ups|e].
    + destruct Hr as (-> & Hl & Hr). by rewrite firstn_all in Hh.
    + exists k. split; [lia | done].
Qed.

End Uploads.

Lemma uploadFiles_in_staged_order_witness :
  _uploadFiles (H := refusing_second_upload) (start three_files)
  = (Throw (Error "File upload failed (500): boom"),
     {| client := three_files;
        history := [Fetch (UploadFile "a.txt" "a" "text/plain");
                    Fetch (UploadFile "b.txt" "b" "text/plain")] |}) /\
  _uploadFiles (H := scripted completed_at_once) (start briefed)
  = (Return [{| up_id := VStr "file-1"; up_path := "notes.txt"; up_type := "text" |}],
     {| client := briefed;
        history := [Fetch (UploadFile "notes.txt" "hello" "text/plain")] |}).
Proof.
  split.
  - destruct (uploadFiles_in_staged_order (H := refusing_second_upload)
                (start three_files)) as (_ & _ & Hrefused & _).
    refine (Hrefused [_] [VStr "file-1"] _ [_] refusal eq_refl _ eq_refl eq_refl).
    simpl. split; [|exact I].
    eexists _, _. repeat split; reflexivity.
  - destruct (uploadFiles_in_staged_order (H := scripted completed_at_once)
                (start briefed)) as (_ & Haccepted & _).
    refine (Haccepted [VStr "file-1"] _).
    simpl. split; [|exact I].
    eexists _, _. repeat split; reflexivity.
Defined.

(** ** The poll loop, whatever the remote answers *)

Lemma polls_rounds_tail n c runId h :
  polls (h ++ rounds n c runId ++ [Fetch (GetRun (threadId c) runId)])
  = (polls h + n + 1)%nat.
Proof.
  rewrite app_assoc, polls_log. unfold rounds. rewrite polls_rounds. done.
Qed.

(** X15.  Whatever the remote answers, [_waitForRunCompletion] makes at
    most 60 status checks, waits 5 s after every check that does not end
    the loop and after no other, and leaves the instance untouched.
    Either all 60 checks were followed by a wait and the result is the
    time-out error, or the loop ended at a check before that.  A run is
    only returned after at least one check, and its status is then
    [completed]. *)
Theorem waitForRunCompletion_checks `{Platform} (runId : value) (w : World) :
  client (snd (_waitForRunCompletion runId w)) = client w /\
  (exists n,
      (n = 60 /\ fst (_waitForRunCompletion runId w) = Throw err_timed_out /\
       history (snd (_waitForRunCompletion runId w))
         = history w ++ rounds n (client w) runId) \/
      (n < 60 /\
       history (snd (_waitForRunCompletion runId w))
         = history w ++ rounds n (client w) runId
           ++ [Fetch (GetRun (threadId (client w)) runId)])) /\
  polls (history (snd (_waitForRunCompletion runId w))) <= polls (history w) + 60 /\
  (forall run,
      fst (_waitForRunCompletion runId w) = Return run ->
      polls (history w) < polls (history (snd (_waitForRunCompletion runId w))) /\
      is_str "completed" (opt_prop run "status") = true).
Proof.
  unfold _waitForRunCompletion, maxAttempts.
  destruct (poll_trace 60 runId w) as [Hc (n & Hn)].
  split; [done|]. split; [by exists n|]. split.
  - destruct Hn as [(-> & _ & ->)|(Hlt & ->)].
    + unfold rounds. rewrite polls_rounds. lia.
    + rewrite polls_rounds_tail. lia.
  - intros run Hrun. split.
    + destruct Hn as [(_ & Hthrow & _)|(Hlt & ->)]; [congruence|].
      rewrite polls_rounds_tail. lia.
    + destruct (poll 60 runId w) as [r w'] eqn:Hpoll. simpl in Hrun. subst r.
      by destruct (poll_returns _ _ _ _ _ Hpoll).
Qed.

Section RunTrace.
Context `{Platform}.

Lemma _runAssistant_trace w run w' :
  _runAssistant w = (Return run, w') ->
  client w' = client w /\
  exists rid n,
    n < 60 /\
    history w' = history w
      ++ [Fetch (CreateRun (threadId (client w)) (assistantId (client w)))]
      ++ rounds n (client w) rid ++ [Fetch (GetRun (threadId (client w)) rid)].
Proof.
  intros Hrun. unfold _runAssistant in Hrun.
  apply bind_returns in Hrun as (c & w1 & [= <- <-] & Hrun).
  apply bind_returns in Hrun as (response & w2 & Hcall & Hrun).
  destruct (negb (ok response)); [done|].
  apply bind_returns in Hrun as (run0 & w3 & [= _ <-] & Hrun).
  apply bind_returns in Hrun as (rid & w4 & [= _ <-] & Hrun).
  unfold call in Hcall. injection Hcall as _ <-.
  unfold _waitForRunCompletion, maxAttempts in Hrun.
  destruct (poll_trace 60 rid
              (log (Fetch (CreateRun (threadId (client w)) (assistantId (client w)))) w))
    as [Hc (n & Hn)].
  rewrite Hrun in Hc, Hn. cbn [fst snd] in Hc, Hn.
  split; [done|]. exists rid, n.
  destruct Hn as [(_ & [=] & _)|(Hlt & ->)]. split; [done|].
  simpl. by rewrite <- !app_assoc.
Qed.

(** The requests of a [fetch] that returned, and the instance after it. *)
Lemma fetch_returns_trace (w w' : World) :
  fetch w = (Return tt, w') ->
  exists ups rid n r,
    n < 60 /\
    length ups = length (files (client w)) /\
    client w' = set_lastResponse (Some r)
                  (set_threadId (threadId (client w'))
                     (set_assistantId (assistantId (client w')) (client w))) /\
    history w' = history w
      ++ List.map upload_event (files (client w))
      ++ (if truthy (assistantId (client w)) then []
          else [Fetch (assistant_request (client w))])
      ++ (if truthy (threadId (client w)) then []
          else [Fetch (CreateThread (threadMessages (messages (client w)) ups))])
      ++ [Fetch (CreateRun (threadId (client w')) (assistantId (client w')))]
      ++ rounds n (client w') rid
      ++ [Fetch (GetRun (threadId (client w')) rid)]
      ++ [Fetch (ListMessages (threadId (client w')))]
      ++ List.map delete_event ups.
Proof.
  intros (ups & aid & tid & run & responseMessage & wb & wc & wd & we & wf
          & Hups & Haid & Htid & Hrun & Hmsg & Hclean)%fetch_returns_inv.
  assert (Hb : client wb = client w /\ length ups = length (files (client w)) /\
               history wb = history w ++ List.map upload_event (files (client w))).
  { destruct (0 <? length (files (client w)))%nat eqn:Hlen.
    - destruct (uploadFiles_trace_aux w) as [Hc (k & _ & Hh & Hr)].
      rewrite Hups in Hc, Hh, Hr. cbn [fst snd] in Hc, Hh, Hr.
      destruct Hr as (-> & Hl & _). by rewrite firstn_all in Hh.
    - injection Hups as <- <-. apply Nat.ltb_ge in Hlen.
      destruct (files (client w)); simpl in *; [by rewrite app_nil_r | lia]. }
  destruct Hb as (Hcb & Hlen & Hhb).
  destruct (_getOrCreateAssistant_trace wb) as [Hhc Hcc].
  rewrite Haid in Hhc, Hcc. cbn [fst snd] in Hhc, Hcc. rewrite Hcb in Hhc, Hcc.
  destruct (_getOrCreateThread_trace ups wc) as [Hhd Hcd].
  rewrite Htid in Hhd, Hcd. cbn [fst snd] in Hhd, Hcd.
  destruct (_runAssistant_trace _ _ _ Hrun) as [Hce (rid & n & Hn & Hhe)].
  pose proof (_getMessages_trace we) as Hf. rewrite Hmsg in Hf. cbn [snd] in Hf.
  pose proof (cleanup_trace ups
                (with_client
                   (set_lastResponse
                      (Some (formattedResponse (opt_prop run "id")
                               (Date_now (history wf)) (client wf) responseMessage)))
                   wf)) as Hh.
  pose proof (cleanup_client ups
                (with_client
                   (set_lastResponse
                      (Some (formattedResponse (opt_prop run "id")
                               (Date_now (history wf)) (client wf) responseMessage)))
                   wf)) as Hc.
  rewrite Hclean in Hh, Hc. cbn [snd] in Hh, Hc.
  exists ups, rid, n,
    (formattedResponse (opt_prop run "id") (Date_now (history wf)) (client wf)
       responseMessage).
  split; [done|]. split; [done|].
  rewrite Hcc in Hcd, Hhd. rewrite Hcd in Hce, Hhe. simpl in Hhd, Hhe.
  assert (Hwf : client wf = set_threadId tid (set_assistantId aid (client w))).
  { subst wf. simpl. by rewrite Hce. }
  rewrite Hc. simpl. rewrite Hwf. simpl. split; [done|].
  rewrite Hh. simpl. subst wf. simpl. rewrite Hce. simpl.
  rewrite Hhe, Hhd, Hhc, Hhb. unfold rounds, poll_round. simpl.
  rewrite <- !app_assoc. do 4 f_equal. simpl. f_equal. by rewrite <- app_assoc.
Qed.


(** X12.  A [fetch] that returns has sent, in this order and nothing
    else: one upload per staged file in staged order; the assistant
    creation, unless an identifier was there; the thread creation with
    the thread messages, unless an identifier was there; the run
    creation on the two identifiers the instance holds afterwards; status
    checks on that thread, each but the last followed by the 5 s wait,
    fewer than 60 waits in all; the request for the latest message; one
    delete per uploaded file, in upload order.  The instance differs from
    the one before only by the two identifiers and the stored result:
    messages, files and options are those from before. *)
Theorem fetch_success_trace (w w' : World) :
  fetch w = (Return tt, w') ->
  exists ups rid n,
    n < 60 /\
    length ups = length (files (client w)) /\
    history w' = history w
      ++ List.map upload_event (files (client w))
      ++ (if truthy (assistantId (client w)) then []
          else [Fetch (assistant_request (client w))])
      ++ (if truthy (threadId (client w)) then []
          else [Fetch (CreateThread (threadMessages (messages (client w)) ups))])
      ++ [Fetch (CreateRun (threadId (client w')) (assistantId (client w')))]
      ++ rounds n (client w') rid
      ++ [Fetch (GetRun (threadId (client w')) rid)]
      ++ [Fetch (ListMessages (threadId (client w')))]
      ++ List.map delete_event ups /\
    messages (client w') = messages (client w) /\
    files (client w') = files (client w) /\
    options (client w') = options (client w) /\
    is_Some (_lastResponse (client w')).
Proof.
  intros (ups & rid & n & r & Hn & Hlen & Hc & Hh)%fetch_returns_trace.
  exists ups, rid, n. split; [done|]. split; [done|]. split; [done|].
  rewrite Hc. simpl. eauto.
Qed.

End RunTrace.

Lemma fetch_success_trace_witness :
  fetch (H := scripted queued_three_times) (start briefed)
  = (Return tt, snd (fetch (H := scripted queued_three_times) (start briefed))) /\
  history (snd (fetch (H := scripted queued_three_times) (start briefed)))
  = [Fetch (UploadFile "notes.txt" "hello" "text/plain");
     Fetch (CreateAssistant "gpt-4o-mini" "File Analysis Assistant"
              (VStr "Be brief.") (VNum 0.7));
     Fetch (CreateThread [{| tm_role := VStr "user"; tm_content := VStr "hi";
                             tm_attachments := Some [VStr "file-1"] |}]);
     Fetch (CreateRun (VStr "thread_1") (VStr "asst_1"));
     Fetch (GetRun (VStr "thread_1") (VStr "run_1")); Sleep 5000;
     Fetch (GetRun (VStr "thread_1") (VStr "run_1")); Sleep 5000;
     Fetch (GetRun (VStr "thread_1") (VStr "run_1")); Sleep 5000;
     Fetch (GetRun (VStr "thread_1") (VStr "run_1"));
     Fetch (ListMessages (VStr "thread_1"));
     Fetch (DeleteFile (VStr "file-1"))] /\
  files (client (snd (fetch (H := scripted queued_three_times) (start briefed))))
  = files briefed.
Proof.
  assert (Hrun : fetch (H := scripted queued_three_times) (start briefed)
                 = (Return tt,
                    snd (fetch (H := scripted queued_three_times) (start briefed))))
    by (vm_compute; reflexivity).
  split; [exact Hrun|]. split; [by vm_compute|].
  destruct (fetch_success_trace (H := scripted queued_three_times) _ _ Hrun)
    as (ups & rid & n & _ & _ & _ & _ & Hfiles & _).
  exact Hfiles.
Defined.

(** ** What a run sends and keeps, whatever its outcome *)

#[local] Instance emits_preorder P : PreOrder (emits P).
Proof.
  split.
  - intros w. exists []. by rewrite app_nil_r.
  - intros w1 w2 w3 (e1 & H1 & P1) (e2 & H2 & P2). exists (e1 ++ e2).
    rewrite H2, H1, <- app_assoc, forallb_app, P1, P2. done.
Qed.

Lemma emits_log P e w : P e = true -> emits P w (log e w).
Proof. intros He. exists [e]. simpl. by rewrite He. Qed.

Lemma emits_with_client P f w : emits P w (with_client f w).
Proof. exists []. simpl. by rewrite app_nil_r. Qed.

Lemma emits_weaken (P Q : event -> bool) w w' :
  (forall e, P e = true -> Q e = true) -> emits P w w' -> emits Q w w'.
Proof.
  intros HPQ (evs & Hh & HP). exists evs. split; [done|].
  apply forallb_forall. intros e He. apply HPQ.
  by apply (proj1 (forallb_forall P evs) HP).
Qed.

#[local] Instance same_store_preorder : PreOrder same_store.
Proof.
  split; [by intros w | intros w1 w2 w3 H12 H23].
  unfold same_store in *. intuition congruence.
Qed.

Lemma fetch_same_store w w' : rtc fetch_step w w' -> same_store w w'.
Proof. apply rtc_within; [apply _|]. by intros x y [? ? []|]. Qed.

Section Frame.
Context `{Platform}.

Ltac emits_step :=
  lazymatch goal with
  | |- keeps _ (bind _ _) => apply keeps_bind; [|intros ?]
  | |- keeps _ (if ?b then _ else _) => destruct b
  | |- keeps _ (match ?x with _ => _ end) => destruct x
  | |- keeps _ (call _) => intros ?; by apply emits_log
  | |- keeps _ (sleep _) => intros ?; by apply emits_log
  | |- keeps _ (update _) => intros ?; apply emits_with_client
  | |- keeps _ now => intros ?; reflexivity
  | |- _ =>
      first [ apply keeps_ret | apply keeps_throw | apply keeps_lift
            | apply keeps_this | solve [auto] ]
  end.

Lemma _uploadFiles_emits : keeps orch _uploadFiles.
Proof.
  assert (Hloop : forall todo acc, keeps orch (_uploadFiles_loop todo acc)).
  { induction todo as [|file rest IH]; intros acc; simpl; repeat emits_step. }
  unfold _uploadFiles. repeat emits_step.
Qed.

Lemma _getOrCreateAssistant_emits : keeps orch _getOrCreateAssistant.
Proof. unfold _getOrCreateAssistant. repeat emits_step. Qed.

Lemma _getOrCreateThread_emits ups : keeps orch (_getOrCreateThread ups).
Proof. unfold _getOrCreateThread. repeat emits_step. Qed.

Lemma _runAssistant_emits : keeps orch _runAssistant.
Proof.
  assert (Hpoll : forall left runId, keeps orch (poll left runId)).
  { induction left as [|left IH]; intros runId; simpl; repeat emits_step. }
  unfold _runAssistant, _waitForRunCompletion. repeat emits_step.
Qed.

Lemma _getMessages_emits : keeps orch _getMessages.
Proof. unfold _getMessages. repeat emits_step. Qed.

Lemma fetch_throws_emits : throws_within orch fetch.
Proof.
  pose proof _uploadFiles_emits. pose proof _getOrCreateAssistant_emits.
  pose proof _getOrCreateThread_emits. pose proof _runAssistant_emits.
  pose proof _getMessages_emits.
  assert (Htry : throws_within orch fetch_try).
  { unfold fetch_try.
    apply throws_within_bind; [apply _ | apply keeps_this | intros c].
    destruct (_ && _); [apply throws_within_keeps, keeps_throw|].
    apply throws_within_bind;
      [apply _ | destruct (0 <? _)%nat; [done | apply keeps_ret] | intros ups].
    apply throws_within_bind; [apply _ | done | intros _].
    apply throws_within_bind; [apply _ | done | intros _].
    apply throws_within_bind; [apply _ | done | intros run].
    apply throws_within_bind; [apply _ | done | intros responseMessage].
    apply throws_within_bind; [apply _ | apply keeps_lift | intros rid].
    apply throws_within_bind; [apply _ | by intros ? | intros t].
    apply throws_within_bind; [apply _ | apply keeps_this | intros c'].
    intros w e w' Hrun.
    pose proof (materialize_returns (formattedResponse rid t c' responseMessage) ups w)
      as Hr.
    by rewrite Hrun in Hr. }
  intros w e w' Hrun. unfold fetch, try_catch in Hrun.
  destruct (fetch_try w) as [[[]|e0] w1] eqn:Hw; [done|].
  apply Htry in Hw.
  pose proof (fetch_catch_world e0 w1) as Hcw. rewrite Hrun in Hcw. simpl in Hcw.
  by subst.
Qed.

(** X14.  A [fetch] that throws has sent nothing but uploads, the
    creation of assistant, thread and run, status checks and the request
    for the latest message, and has waited in between: in particular it
    has sent no delete request, so the files it uploaded before failing
    stay on the remote, and it has written no file.  Its messages, files
    and options are untouched. *)
Theorem fetch_failure_deletes_nothing (w w' : World) (e : JsError) :
  fetch w = (Throw e, w') ->
  (exists evs, history w' = history w ++ evs /\
               forallb orchestration_event evs = true) /\
  requests deletes_file (history w') = requests deletes_file (history w) /\
  messages (client w') = messages (client w) /\
  files (client w') = files (client w) /\
  options (client w') = options (client w).
Proof.
  intros Hrun. pose proof (fetch_throws_emits _ _ _ Hrun) as (evs & Hh & Hevs).
  split; [by exists evs|]. split.
  - rewrite Hh. unfold requests. rewrite List.filter_app, length_app.
    assert (Hnone : List.filter
                      (fun e0 => match e0 with Fetch r => deletes_file r | _ => false end)
                      evs = []).
    { clear Hh. induction evs as [|ev rest IH]; simpl in *; [done|].
      apply andb_true_iff in Hevs as [Hev Hrest]. rewrite (IH Hrest).
      by destruct ev as [[]| |]. }
    rewrite Hnone. simpl. lia.
  - pose proof (fetch_steps w) as Hsteps. rewrite Hrun in Hsteps.
    by apply fetch_same_store in Hsteps.
Qed.

(** X13.  When both identifiers are there, a [fetch] that returns sends
    no assistant and no thread request and keeps both identifiers: its
    requests are the uploads, the run creation on the stored identifiers,
    the status checks, the request for the latest message and the
    deletes.  The thread messages and the attachments travel only in the
    thread creation, so on an existing thread neither the stored messages
    nor the files just uploaded are passed on. *)
Theorem fetch_on_existing_thread (w w' : World) :
  truthy (assistantId (client w)) = true ->
  truthy (threadId (client w)) = true ->
  fetch w = (Return tt, w') ->
  exists ups rid n,
    n < 60 /\
    length ups = length (files (client w)) /\
    history w' = history w
      ++ List.map upload_event (files (client w))
      ++ [Fetch (CreateRun (threadId (client w)) (assistantId (client w)))]
      ++ rounds n (client w) rid
      ++ [Fetch (GetRun (threadId (client w)) rid)]
      ++ [Fetch (ListMessages (threadId (client w)))]
      ++ List.map delete_event ups /\
    assistantId (client w') = assistantId (client w) /\
    threadId (client w') = threadId (client w).
Proof.
  intros Ha Ht Hrun.
  pose proof (fetch_steps w) as Hsteps. rewrite Hrun in Hsteps. simpl in Hsteps.
  destruct (fetch_reuses_assistant _ _ Hsteps Ha) as [Haid _].
  destruct (fetch_reuses_thread _ _ Hsteps Ht) as [Htid _].
  apply fetch_returns_trace in Hrun as (ups & rid & n & r & Hn & Hlen & Hc & Hh).
  exists ups, rid, n. split; [done|]. split; [done|]. split; [|done].
  rewrite Hh, Ha, Ht, Haid, Htid. simpl. unfold rounds, poll_round. by rewrite Htid.
Qed.

(** X10.  With no message and no file [fetch] throws the nothing-to-send
    error at once: nothing is sent and the instance is as it was.  This
    is what a [fetch] right after [clear()] does, and the result of an
    earlier run is still readable afterwards. *)
Theorem fetch_nothing_to_send (w : World) :
  (messages (client w) = [] -> files (client w) = [] ->
   fetch w = (Throw err_nothing_to_send, w)) /\
  fetch (with_client clear w) = (Throw err_nothing_to_send, with_client clear w) /\
  raw_response (client (snd (fetch (with_client clear w)))) = raw_response (client w).
Proof.
  assert (Hempty : forall w0, messages (client w0) = [] -> files (client w0) = [] ->
                              fetch w0 = (Throw err_nothing_to_send, w0)).
  { intros w0 Hm Hf. unfold fetch, try_catch, fetch_try, bind, this.
    by rewrite Hm, Hf. }
  split; [apply Hempty|].
  rewrite (Hempty (with_client clear w)); done.
Qed.

(** X11.  What the [catch] block of [fetch] does to the error of the
    [try] block: an error named [AbortError] is replaced by the
    request-timeout error that quotes the configured [timeout], every
    other error is thrown on as it is, and the world is the one the
    [try] block left.  So [fetch] never rejects with an [AbortError]. *)
Theorem fetch_replaces_abort_error (w : World) :
  match fetch_try w with
  | (Return _, w1) => fetch w = (Return tt, w1)
  | (Throw e0, w1) =>
      fetch w = (Throw (if String.eqb (name e0) "AbortError"
                        then err_request_timeout (client w) else e0), w1)
  end /\
  (forall e, fst (fetch w) = Throw e -> name e <> "AbortError").
Proof.
  assert (Hshape : match fetch_try w with
                   | (Return _, w1) => fetch w = (Return tt, w1)
                   | (Throw e0, w1) =>
                       fetch w = (Throw (if String.eqb (name e0) "AbortError"
                                         then err_request_timeout (client w) else e0),
                                  w1)
                   end).
  { unfold fetch, try_catch.
    destruct (fetch_try w) as [[[]|e0] w1] eqn:Htry; [done|].
    unfold fetch_catch, err_request_timeout.
    destruct (String.eqb (name e0) "AbortError"); [|done].
    unfold bind, this, throw. simpl.
    apply fetch_try_throws, orchestration_is_fetch_step, fetch_same_config in Htry.
    destruct Htry as (_ & _ & _ & _ & ->). done. }
  split; [exact Hshape|].
  intros e He. destruct (fetch_try w) as [[[]|e0] w1]; rewrite Hshape in He;
    simpl in He; [done|]. injection He as <-.
  destruct (String.eqb_spec (name e0) "AbortError"); [done | done].
Qed.

End Frame.

Lemma fetch_failure_deletes_nothing_witness :
  fetch (H := scripted always_failed) (start briefed)
  = (Throw (Error "Run failed: boom"),
     snd (fetch (H := scripted always_failed) (start briefed))) /\
  requests deletes_file (history (snd (fetch (H := scripted always_failed) (start briefed))))
  = 0 /\
  requests (fun r => match r with UploadFile _ _ _ => true | _ => false end)
    (history (snd (fetch (H := scripted always_failed) (start briefed)))) = 1.
Proof.
  assert (Hrun : fetch (H := scripted always_failed) (start briefed)
                 = (Throw (Error "Run failed: boom"),
                    snd (fetch (H := scripted always_failed) (start briefed))))
    by (vm_compute; reflexivity).
  split; [exact Hrun|]. split; [|by vm_compute].
  exact (proj1 (proj2 (fetch_failure_deletes_nothing (H := scripted always_failed)
                         _ _ _ Hrun))).
Defined.

Lemma fetch_on_existing_thread_witness :
  truthy (assistantId (client (start (set_files (files briefed) resumed)))) = true /\
  truthy (threadId (client (start (set_files (files briefed) resumed)))) = true /\
  fetch (H := scripted completed_at_once) (start (set_files (files briefed) resumed))
  = (Return tt,
     snd (fetch (H := scripted completed_at_once)
            (start (set_files (files briefed) resumed)))) /\
  history (snd (fetch (H := scripted completed_at_once)
                  (start (set_files (files briefed) resumed))))
  = [Fetch (UploadFile "notes.txt" "hello" "text/plain");
     Fetch (CreateRun (VStr "thread_1") (VStr "asst_1"));
     Fetch (GetRun (VStr "thread_1") (VStr "run_1"));
     Fetch (ListMessages (VStr "thread_1"));
     Fetch (DeleteFile (VStr "file-1"))] /\
  threadId (client (snd (fetch (H := scripted completed_at_once)
                           (start (set_files (files briefed) resumed)))))
  = VStr "thread_1".
Proof.
  assert (Hrun : fetch (H := scripted completed_at_once)
                   (start (set_files (files briefed) resumed))
                 = (Return tt,
                    snd (fetch (H := scripted completed_at_once)
                           (start (set_files (files briefed) resumed)))))
    by (vm_compute; reflexivity).
  split; [reflexivity|]. split; [reflexivity|]. split; [exact Hrun|].
  split; [by vm_compute|].
  destruct (fetch_on_existing_thread (H := scripted completed_at_once)
              (start (set_files (files briefed) resumed)) _
              eq_refl eq_refl Hrun) as (ups & rid & n & _ & _ & _ & _ & Htid).
  exact Htid.
Defined.

(** An aborted transport surfaces as the request-timeout error. *)
Example fetch_aborted :
  fst (fetch (H := aborting) (start asking))
  = Throw (Error "Request timeout after 30000ms. Try increasing the timeout or check your connection.").
Proof. by vm_compute. Qed.

(** ** The poll loop against a remote that answers *)

Section PollAnswers.
Context `{Platform}.

Lemma rounds_S n c runId :
  rounds (S n) c runId = poll_round c runId ++ rounds n c runId.
Proof. done. Qed.

(** [k] answers that do not end the loop use up [k] iterations. *)
Lemma poll_skip k left runId w :
  (forall i, i < k ->
     non_terminal (_fetch (history w ++ rounds i (client w) runId)
                     (GetRun (threadId (client w)) runId)) = true) ->
  poll (k + left) runId w
  = poll left runId {| client := client w;
                       history := history w ++ rounds k (client w) runId |}.
Proof.
  revert w. induction k as [|k IH]; intros w Hnt.
  - simpl. unfold rounds. simpl. by rewrite app_nil_r, world_eta.
  - cbn [Nat.add poll]. unfold bind, this, call, lift, sleep. cbn [fst snd].
    pose proof (Hnt 0 ltac:(lia)) as H0. unfold rounds in H0. simpl in H0.
    rewrite app_nil_r in H0. unfold non_terminal in H0.
    destruct (_fetch _ _) as [response|e]; [|done].
    destruct (ok response); [|done]. simpl in H0. simpl.
    destruct (json response) as [run|e]; [|done]. simpl.
    destruct (prop run "status") as [st|e]; [|done]. simpl.
    apply andb_true_iff in H0 as [Hc Hf]. apply negb_true_iff in Hc, Hf.
    rewrite Hc, Hf.
    rewrite IH.
    + simpl. rewrite rounds_S. unfold poll_round. simpl. by rewrite <- !app_assoc.
    + intros i Hi. simpl. specialize (Hnt (S i) ltac:(lia)).
      rewrite rounds_S in Hnt. unfold poll_round in Hnt. simpl in Hnt.
      by rewrite <- !app_assoc.
Qed.

Lemma poll_last_check left runId (w : World) response run :
  _fetch (history w) (GetRun (threadId (client w)) runId) = Return response ->
  ok response = true ->
  json response = Return run ->
  (is_str "completed" (opt_prop run "status") = true ->
   poll (S left) runId w
   = (Return run, log (Fetch (GetRun (threadId (client w)) runId)) w)) /\
  (failure_status (opt_prop run "status") = true ->
   poll (S left) runId w
   = (Throw (err_run run), log (Fetch (GetRun (threadId (client w)) runId)) w)).
Proof.
  intros Hfetch Hok Hjson. cbn [poll]. unfold bind, this, call, lift, throw, ret.
  cbn [fst snd]. rewrite Hfetch, Hok, Hjson. simpl.
  assert (Hprop : forall st, opt_prop run "status" = VStr st ->
                             prop run "status" = Return (VStr st)).
  { intros st Hst. destruct run; try done. simpl. by rewrite <- Hst. }
  split; intros Hst.
  - destruct (opt_prop run "status") as [| | | |st| |] eqn:Hs; try done.
    rewrite (Hprop st eq_refl). simpl in Hst |- *. by rewrite Hst.
  - destruct (opt_prop run "status") as [| | | |st| |] eqn:Hs; try done.
    rewrite (Hprop st eq_refl). unfold failure_status in *. simpl in Hst |- *.
    rewrite Hst.
    destruct (String.eqb st "completed") eqn:Hc; [|done].
    apply String.eqb_eq in Hc as ->. done.
Qed.

End PollAnswers.

(** X16.  When the remote answers the first [k < 60] status checks with
    a status that does not end the loop and the next one with
    [completed], [_waitForRunCompletion] returns the run object of that
    answer after exactly [k + 1] checks and [k] waits of 5 s. *)
Theorem waitForRunCompletion_completes `{Platform}
    (k : nat) (runId : value) (w : World) (response : Response) (run : value) :
  k < 60 ->
  (forall i, i < k ->
     non_terminal (_fetch (history w ++ rounds i (client w) runId)
                     (GetRun (threadId (client w)) runId)) = true) ->
  _fetch (history w ++ rounds k (client w) runId) (GetRun (threadId (client w)) runId)
    = Return response ->
  ok response = true ->
  json response = Return run ->
  is_str "completed" (opt_prop run "status") = true ->
  _waitForRunCompletion runId w
  = (Return run,
     {| client := client w;
        history := history w ++ rounds k (client w) runId
                   ++ [Fetch (GetRun (threadId (client w)) runId)] |}) /\
  polls (history (snd (_waitForRunCompletion runId w))) = polls (history w) + k + 1.
Proof.
  intros Hk Hnt Hfetch Hok Hjson Hdone.
  unfold _waitForRunCompletion, maxAttempts.
  replace 60 with (k + S (59 - k)) by lia.
  rewrite (poll_skip k _ runId w Hnt).
  destruct (poll_last_check (59 - k) runId
              {| client := client w; history := history w ++ rounds k (client w) runId |}
              response run Hfetch Hok Hjson) as [Hret _].
  rewrite (Hret Hdone). unfold log. cbn [snd history client].
  split; [by rewrite <- app_assoc|].
  rewrite polls_log. unfold rounds. rewrite polls_rounds. simpl. lia.
Qed.

Lemma waitForRunCompletion_completes_witness :
  polls (history (snd (_waitForRunCompletion (H := scripted queued_three_times)
                         (VStr "run_1") (start resumed)))) = 4 /\
  is_throw (fst (_waitForRunCompletion (H := scripted queued_three_times)
                   (VStr "run_1") (start resumed))) = false.
Proof.
  assert (Hnt : forall i, i < 3 ->
            non_terminal
              (_fetch (Platform := scripted queued_three_times)
                 (history (start resumed) ++ rounds i (client (start resumed)) (VStr "run_1"))
                 (GetRun (threadId (client (start resumed))) (VStr "run_1"))) = true).
  { intros i Hi. destruct i as [|[|[|i]]]; [reflexivity..|lia]. }
  destruct (waitForRunCompletion_completes (H := scripted queued_three_times)
              3 (VStr "run_1") (start resumed) _ _
              ltac:(lia) Hnt eq_refl eq_refl eq_refl eq_refl) as [Hrun Hpolls].
  split; [exact Hpolls|]. rewrite Hrun. reflexivity.
Defined.

(** X17.  When the remote answers the first [k < 60] status checks with
    a status that does not end the loop and the next one with [failed],
    [cancelled] or [expired], [_waitForRunCompletion] throws after
    exactly [k + 1] checks an error whose message is [Run], the status,
    a colon and the remote's [last_error.message]; when that message is
    missing or empty the text is [Unknown error]. *)
Theorem waitForRunCompletion_fails `{Platform}
    (k : nat) (runId : value) (w : World) (response : Response) (run : value)
    (st : string) :
  k < 60 ->
  (forall i, i < k ->
     non_terminal (_fetch (history w ++ rounds i (client w) runId)
                     (GetRun (threadId (client w)) runId)) = true) ->
  _fetch (history w ++ rounds k (client w) runId) (GetRun (threadId (client w)) runId)
    = Return response ->
  ok response = true ->
  json response = Return run ->
  opt_prop run "status" = VStr st ->
  st = "failed" \/ st = "cancelled" \/ st = "expired" ->
  exists reason,
    _waitForRunCompletion runId w
    = (Throw (Error ("Run " ++ st ++ ": " ++ reason)),
       {| client := client w;
          history := history w ++ rounds k (client w) runId
                     ++ [Fetch (GetRun (threadId (client w)) runId)] |}) /\
    (forall m, opt_prop (opt_prop run "last_error") "message" = VStr m ->
               reason = if String.eqb m "" then "Unknown error" else m) /\
    (opt_prop (opt_prop run "last_error") "message" = VUndefined ->
     reason = "Unknown error").
Proof.
  intros Hk Hnt Hfetch Hok Hjson Hst Hfail.
  exists (template (or_else (opt_prop (opt_prop run "last_error") "message")
                      (VStr "Unknown error"))).
  split; [|split].
  - unfold _waitForRunCompletion, maxAttempts.
    replace 60 with (k + S (59 - k)) by lia.
    rewrite (poll_skip k _ runId w Hnt).
    destruct (poll_last_check (59 - k) runId
                {| client := client w; history := history w ++ rounds k (client w) runId |}
                response run Hfetch Hok Hjson) as [_ Hthrow].
    rewrite Hthrow.
    + unfold err_run, log. rewrite Hst. cbn [template client history].
      by rewrite <- app_assoc.
    + rewrite Hst. by destruct Hfail as [-> | [-> | ->]].
  - intros m ->. unfold or_else. simpl. by destruct (String.eqb m "").
  - by intros ->.
Qed.

Lemma waitForRunCompletion_fails_witness :
  _waitForRunCompletion (H := scripted always_failed) (VStr "run_1") (start resumed)
  = (Throw (Error "Run failed: boom"),
     {| client := resumed;
        history := [Fetch (GetRun (VStr "thread_1") (VStr "run_1"))] |}).
Proof.
  destruct (waitForRunCompletion_fails (H := scripted always_failed)
              0 (VStr "run_1") (start resumed) _ _ "failed"
              ltac:(lia) ltac:(intros i Hi; lia) eq_refl eq_refl eq_refl eq_refl
              ltac:(by left)) as (reason & Hrun & Hreason & _).
  rewrite Hrun, (Hreason "boom" eq_refl). reflexivity.
Defined.

(** ** Assistant and thread *)

Lemma find_none_forallb {A} (p : A -> bool) l :
  List.find p l = None <-> forallb (fun x => negb (p x)) l = true.
Proof.
  induction l as [|x l IH]; simpl; [done|].
  destruct (p x); simpl; [split; done | done].
Qed.

(** X18.  Without a usable identifier [_getOrCreateAssistant] sends
    exactly one creation request, for the deployment of the instance
    with the current [temperature] option, whose instructions are the
    content of the first system message of the store, or the generic
    text when the store has none.  What it does next is decided by the
    remote's answer to that request.  When the answer is [ok] and its
    body is read, the [id] of that body is stored as the assistant
    identifier and returned, and nothing else changes.  When the answer
    is not [ok], the call throws the creation error made of the answer's
    status and text; when the request fails outright, or the body cannot
    be read, it throws that error.  In every case that throws the
    instance is unchanged, so the next run asks again. *)
Theorem assistant_created_from_first_system_message `{Platform} (w : World) :
  truthy (assistantId (client w)) = false ->
  (exists instructions,
      history (snd (_getOrCreateAssistant w))
      = history w
        ++ [Fetch (CreateAssistant (deploymentName (client w)) "File Analysis Assistant"
                     instructions
                     (default VUndefined (options (client w) !! "temperature")))] /\
      assistant_request (client w)
      = CreateAssistant (deploymentName (client w)) "File Analysis Assistant"
          instructions (default VUndefined (options (client w) !! "temperature")) /\
      (forall before m after,
          messages (client w) = before ++ m :: after ->
          forallb (fun x => negb (has_role "system" x)) before = true ->
          has_role "system" m = true ->
          instructions = content m) /\
      (forallb (fun x => negb (has_role "system" x)) (messages (client w)) = true ->
       instructions = default_instructions)) /\
  (forall response assistant aid,
      _fetch (history w) (assistant_request (client w)) = Return response ->
      ok response = true ->
      json response = Return assistant ->
      prop assistant "id" = Return aid ->
      _getOrCreateAssistant w
      = (Return aid,
         {| client := set_assistantId aid (client w);
            history := history w ++ [Fetch (assistant_request (client w))] |}) /\
      assistantId (client (snd (_getOrCreateAssistant w))) = aid /\
      (forall fields, assistant = VObj fields -> aid = assoc "id" fields)) /\
  (forall response,
      _fetch (history w) (assistant_request (client w)) = Return response ->
      ok response = false ->
      _getOrCreateAssistant w
      = (Throw (http_error "Assistant creation failed" response),
         log (Fetch (assistant_request (client w))) w)) /\
  (forall e,
      _fetch (history w) (assistant_request (client w)) = Throw e ->
      _getOrCreateAssistant w = (Throw e, log (Fetch (assistant_request (client w))) w)) /\
  (forall response e,
      _fetch (history w) (assistant_request (client w)) = Return response ->
      ok response = true ->
      json response = Throw e ->
      _getOrCreateAssistant w = (Throw e, log (Fetch (assistant_request (client w))) w)) /\
  match fst (_getOrCreateAssistant w) with
  | Return aid => client (snd (_getOrCreateAssistant w)) = set_assistantId aid (client w)
  | Throw _ => client (snd (_getOrCreateAssistant w)) = client w
  end.
Proof.
  intros Hid. destruct (_getOrCreateAssistant_trace w) as [Hh Hc].
  rewrite Hid in Hh.
  assert (Hbody : _getOrCreateAssistant w
            = (let* response := call (assistant_request (client w)) in
               if negb (ok response)
               then throw (http_error "Assistant creation failed" response)
               else
                 let* assistant := lift (json response) in
                 let* aid := lift (prop assistant "id") in
                 await update (set_assistantId aid) in
                 ret aid)%async w).
  { unfold _getOrCreateAssistant, bind at 1, this. by rewrite Hid. }
  split; [|split; [|split; [|split; [|split]]]]; [| | | | |exact Hc].
  - eexists. split; [exact Hh|]. split; [done|]. split.
    + intros before m after Hmsgs Hbefore Hm. rewrite Hmsgs.
      clear Hmsgs Hbody. induction before as [|b before IH]; simpl in *; [by rewrite Hm|].
      apply andb_true_iff in Hbefore as [Hb Hrest]. apply negb_true_iff in Hb.
      rewrite Hb. auto.
    + intros Hnone. apply find_none_forallb in Hnone. by rewrite Hnone.
  - intros response assistant aid Hfetch Hok Hjson Hprop.
    assert (Hrun : _getOrCreateAssistant w
              = (Return aid,
                 {| client := set_assistantId aid (client w);
                    history := history w ++ [Fetch (assistant_request (client w))] |})).
    { rewrite Hbody. unfold bind, call, lift, update, ret.
      by rewrite Hfetch, Hok, Hjson, Hprop. }
    split; [exact Hrun|]. split; [by rewrite Hrun|].
    intros fields ->. simpl in Hprop. by injection Hprop as <-.
  - intros response Hfetch Hok. rewrite Hbody. unfold bind, call, throw.
    by rewrite Hfetch, Hok.
  - intros e Hfetch. rewrite Hbody. unfold bind, call. by rewrite Hfetch.
  - intros response e Hfetch Hok Hjson. rewrite Hbody. unfold bind, call, lift.
    by rewrite Hfetch, Hok, Hjson.
Qed.

Lemma assistant_created_from_first_system_message_witness :
  truthy (assistantId (client (start briefed))) = false /\
  _getOrCreateAssistant (H := scripted completed_at_once) (start briefed)
  = (Return (VStr "asst_1"),
     {| client := set_assistantId (VStr "asst_1") briefed;
        history := [Fetch (CreateAssistant "gpt-4o-mini" "File Analysis Assistant"
                             (VStr "Be brief.") (VNum 0.7))] |}) /\
  _getOrCreateAssistant (H := refusing_assistant) (start briefed)
  = (Throw (Error "Assistant creation failed (500): boom"),
     {| client := briefed;
        history := [Fetch (CreateAssistant "gpt-4o-mini" "File Analysis Assistant"
                             (VStr "Be brief.") (VNum 0.7))] |}).
Proof.
  split; [reflexivity|]. split.
  - destruct (assistant_created_from_first_system_message
                (H := scripted completed_at_once) (start briefed) eq_refl)
      as (_ & Hanswered & _).
    exact (proj1 (Hanswered _ _ (VStr "asst_1") eq_refl eq_refl eq_refl eq_refl)).
  - destruct (assistant_created_from_first_system_message
                (H := refusing_assistant) (start briefed) eq_refl)
      as (_ & _ & Hrefused & _).
    exact (Hrefused refusal eq_refl eq_refl).
Defined.

(** X19.  The thread messages are the stored messages without those of
    role [system], in the stored order, each with its role and content.
    No entry has role [system].  An entry carries attachments only if
    its role is [user], and then carries the identifiers of all uploaded
    files in upload order; without uploaded files, or without a user
    message, no entry carries any. *)
Theorem threadMessages_shape (msgs : list Message) (ups : list UploadedFile) :
  List.map (fun t => (tm_role t, tm_content t)) (threadMessages msgs ups)
  = List.map (fun m => (role m, content m))
      (List.filter (fun m => negb (has_role "system" m)) msgs) /\
  Forall (fun t => is_str "system" (tm_role t) = false) (threadMessages msgs ups) /\
  Forall (fun t => tm_attachments t = None \/
                   (tm_attachments t = Some (List.map up_id ups) /\
                    is_str "user" (tm_role t) = true /\ ups <> []))
    (threadMessages msgs ups) /\
  (ups = [] \/ forallb (fun m => negb (has_role "user" m)) msgs = true ->
   Forall (fun t => tm_attachments t = None) (threadMessages msgs ups)).
Proof.
  unfold threadMessages. split; [by rewrite List.map_map|].
  split; [|split].
  - apply Forall_forall. intros t Ht. apply list_elem_of_In, in_map_iff in Ht
      as (m & <- & Hm). apply filter_In in Hm as [_ Hm]. simpl.
    by apply negb_true_iff in Hm.
  - apply Forall_forall. intros t Ht. apply list_elem_of_In, in_map_iff in Ht
      as (m & <- & Hm). simpl.
    destruct (has_role "user" m) eqn:Hu; simpl; [|by left].
    destruct (0 <? length ups)%nat eqn:Hl; simpl; [|by left].
    destruct (is_first_user msgs m); [|by left].
    right. split; [done|]. split; [done|]. by destruct ups.
  - intros Hnone. apply Forall_forall. intros t Ht.
    apply list_elem_of_In, in_map_iff in Ht as (m & <- & Hm). simpl.
    destruct Hnone as [-> | Hnone]; [by rewrite andb_false_r|].
    apply filter_In in Hm as [Hm _].
    apply (proj1 (forallb_forall _ _) Hnone), negb_true_iff in Hm.
    by rewrite Hm.
Qed.

(** X26.  When the stored message objects are pairwise distinct and at
    least one file was uploaded, the thread entry of the first user
    message carries the identifiers of all uploaded files, and every
    other entry, later user messages included, carries none. *)
Theorem attachments_on_first_user_only
    (msgs : list Message) (ups : list UploadedFile) (first : Message) :
  NoDup (List.map ref msgs) ->
  ups <> [] ->
  List.find (has_role "user") msgs = Some first ->
  exists before after,
    msgs = before ++ first :: after /\
    threadMessages msgs ups =
      List.map (fun x => {| tm_role := role x; tm_content := content x;
                            tm_attachments := None |})
        (List.filter (fun x => negb (has_role "system" x)) before)
      ++ {| tm_role := role first; tm_content := content first;
            tm_attachments := Some (List.map up_id ups) |}
      :: List.map (fun x => {| tm_role := role x; tm_content := content x;
                               tm_attachments := None |})
           (List.filter (fun x => negb (has_role "system" x)) after).
Proof.
  intros Hnodup Hups Hfind.
  destruct (find_some_first _ _ _ Hfind) as (before & after & -> & Hfirst & Hbefore).
  exists before, after. split; [done|].
  by apply (threadMessages_distinct_objects (H := scripted completed_at_once)).
Qed.

Lemma attachments_on_first_user_only_witness :
  NoDup (List.map ref [msg 0 "system" "Be brief."; msg 1 "user" "hi";
                       msg 2 "assistant" "hello"; msg 3 "user" "and now?"]) /\
  exists before after,
    [msg 0 "system" "Be brief."; msg 1 "user" "hi";
     msg 2 "assistant" "hello"; msg 3 "user" "and now?"]
    = before ++ msg 1 "user" "hi" :: after /\
    threadMessages
      [msg 0 "system" "Be brief."; msg 1 "user" "hi";
       msg 2 "assistant" "hello"; msg 3 "user" "and now?"]
      [{| up_id := VStr "file-1"; up_path := "notes.txt"; up_type := "text" |}]
    = List.map (fun x => {| tm_role := role x; tm_content := content x;
                            tm_attachments := None |})
        (List.filter (fun x => negb (has_role "system" x)) before)
      ++ {| tm_role := VStr "user"; tm_content := VStr "hi";
            tm_attachments := Some [VStr "file-1"] |}
      :: List.map (fun x => {| tm_role := role x; tm_content := content x;
                               tm_attachments := None |})
           (List.filter (fun x => negb (has_role "system" x)) after).
Proof.
  assert (Hnodup : NoDup (List.map ref [msg 0 "system" "Be brief."; msg 1 "user" "hi";
                                        msg 2 "assistant" "hello";
                                        msg 3 "user" "and now?"])).
  { apply (bool_decide_unpack _). vm_compute. exact I. }
  split; [exact Hnodup|].
  exact (attachments_on_first_user_only
           [msg 0 "system" "Be brief."; msg 1 "user" "hi";
            msg 2 "assistant" "hello"; msg 3 "user" "and now?"]
           [{| up_id := VStr "file-1"; up_path := "notes.txt"; up_type := "text" |}]
           (msg 1 "user" "hi") Hnodup ltac:(discriminate) eq_refl).
Defined.

(** ** The reply *)

(** X20.  The content taken from the fetched message is never
    [undefined] or [null].  It is the [text.value] of the first content
    part when that is there, else the content of the message as it is
    (a plain string for instance), else the empty string, which is also
    what a missing message gives. *)
Theorem contentValue_extracts (responseMessage : value) :
  contentValue responseMessage <> VUndefined /\
  contentValue responseMessage <> VNull /\
  (forall v,
      opt_prop (opt_prop (opt_first (opt_prop responseMessage "content")) "text") "value"
        = v ->
      v <> VUndefined -> v <> VNull -> contentValue responseMessage = v) /\
  (forall s, opt_prop responseMessage "content" = VStr s ->
             contentValue responseMessage = VStr s) /\
  (opt_prop responseMessage "content" = VUndefined ->
   contentValue responseMessage = VStr "") /\
  contentValue VUndefined = VStr "" /\
  contentValue VNull = VStr "".
Proof.
  unfold contentValue, nullish.
  split; [|split; [|split; [|split; [|split]]]].
  - by repeat case_match.
  - by repeat case_match.
  - intros v -> Hu Hn. by destruct v.
  - intros s ->. simpl. by destruct s.
  - by intros ->.
  - done.
Qed.

Section Reply.
Context `{Platform}.


End Reply.


(** ** The stored result, by what the remote answered *)

Section ResultAnswers.
Context `{Platform}.






End ResultAnswers.


(** ** Persisting the reply *)

Section Persist.
Context `{Platform}.

(** X22.  [save_response] checks its arguments before anything else: an
    empty file name is refused first, then a missing result, each with
    its own error, and in both cases nothing is written and the world is
    as before.  Whatever happens, the instance is not changed, no request
    is sent, and at most one file is written, under the given name. *)
Theorem save_response_requires (fname : string) (ftype : option string) (w : World) :
  save_response "" ftype w
    = (Throw (Error "file_name is required to save the response"), w) /\
  (fname <> "" -> _lastResponse (client w) = None ->
   save_response fname ftype w
   = (Throw (Error "No response available. Call fetch() first to get a response."), w)) /\
  client (snd (save_response fname ftype w)) = client w /\
  (history (snd (save_response fname ftype w)) = history w \/
   exists data,
     history (snd (save_response fname ftype w)) = history w ++ [WriteFile fname data]).
Proof.
  split; [done|]. split.
  { intros Hf Hnone. unfold save_response, bind, this, throw.
    apply String.eqb_neq in Hf. by rewrite Hf, Hnone. }
  unfold save_response, bind, this, throw, ret, write. cbn [fst snd].
  destruct (String.eqb fname ""); [by auto|].
  destruct (_lastResponse (client w)) as [r|]; [|by auto].
  destruct (String.eqb (toLowerCase (default "json" ftype)) "json").
  - destruct (choices r); cbn [fst snd]; [by auto | split; [done|]; right; eauto].
  - destruct (String.eqb (toLowerCase (default "json" ftype)) "text");
      cbn [fst snd]; (split; [done|]; right; eauto).
Qed.

(** X23.  What is written for a stored result with one choice whose
    content is a string [s].  For the kind [json] (the default), compared
    after lower-casing: the indented JSON text of what [JSON.parse] makes
    of [s], and when [s] does not parse, the indented JSON text of the
    string [s] itself.  For the kind [text]: [s] as it is.  The outcome
    of the call is the outcome of the write. *)
Theorem save_response_formats
    (fname : string) (ftype : option string) (w : World)
    (r : CompletionResponse) (ch : CompletionChoice) (s : string) :
  fname <> "" ->
  _lastResponse (client w) = Some r ->
  choices r = [ch] ->
  message_content ch = VStr s ->
  (toLowerCase (default "json" ftype) = "json" ->
   (forall v, JSON_parse s = Return v ->
      save_response fname ftype w
      = (writeFileSync (history w) fname (JSON_stringify_indent v),
         log (WriteFile fname (JSON_stringify_indent v)) w)) /\
   (forall e, JSON_parse s = Throw e ->
      save_response fname ftype w
      = (writeFileSync (history w) fname (JSON_stringify_indent (VStr s)),
         log (WriteFile fname (JSON_stringify_indent (VStr s))) w))) /\
  (toLowerCase (default "json" ftype) = "text" ->
   save_response fname ftype w
   = (writeFileSync (history w) fname s, log (WriteFile fname s) w)).
Proof.
  intros Hf Hr Hch Hs. apply String.eqb_neq in Hf.
  unfold save_response, bind, this, throw, ret, write. cbn [fst snd].
  rewrite Hf, Hr, Hch, Hs. split.
  - intros ->. simpl. split; [intros v -> | intros e ->]; done.
  - intros ->. cbn. by rewrite Hs.
Qed.

End Persist.

Lemma save_response_formats_witness :
  save_response (H := scripted completed_at_once) "out.json" None (start answered)
  = (Return tt,
     {| client := answered;
        history := [WriteFile "out.json"
                      (String (ascii_of_nat 34)
                         ("earlier" ++ String (ascii_of_nat 34) EmptyString))] |}) /\
  save_response (H := scripted completed_at_once) "out.txt" (Some "TEXT") (start answered)
  = (Return tt, {| client := answered; history := [WriteFile "out.txt" "earlier"] |}).
Proof.
  pose proof (save_response_formats (H := scripted completed_at_once)
                "out.json" None (start answered) earlier_result _ "earlier"
                ltac:(discriminate) eq_refl eq_refl eq_refl) as [Hjson _].
  pose proof (save_response_formats (H := scripted completed_at_once)
                "out.txt" (Some "TEXT") (start answered) earlier_result _ "earlier"
                ltac:(discriminate) eq_refl eq_refl eq_refl) as [_ Htext].
  split.
  - exact (proj2 (Hjson eq_refl) (SyntaxError "Unexpected end of JSON input") eq_refl).
  - exact (Htext eq_refl).
Defined.

(** ** Cleanup *)

(** X24.  [delete_assistant] without a usable identifier does nothing:
    no request, the world as before.  With one it sends exactly one
    delete request for that identifier; when the remote accepts, both
    the assistant and the thread identifier are reset to [null] and
    nothing else changes; when the request fails or is refused, the call
    throws and the instance keeps both identifiers. *)
Theorem delete_assistant_outcomes `{Platform} (w : World) :
  (truthy (assistantId (client w)) = false -> delete_assistant w = (Return tt, w)) /\
  (truthy (assistantId (client w)) = true ->
   history (snd (delete_assistant w))
     = history w ++ [Fetch (DeleteAssistant (assistantId (client w)))] /\
   match _fetch (history w) (DeleteAssistant (assistantId (client w))) with
   | Return response =>
       if ok response
       then fst (delete_assistant w) = Return tt /\
            client (snd (delete_assistant w))
            = set_threadId VNull (set_assistantId VNull (client w))
       else fst (delete_assistant w)
            = Throw (http_error "Assistant deletion failed" response) /\
            client (snd (delete_assistant w)) = client w
   | Throw e =>
       fst (delete_assistant w) = Throw e /\
       client (snd (delete_assistant w)) = client w
   end).
Proof.
  unfold delete_assistant, bind, this, call, throw, update, ret. cbn [fst snd].
  split; intros Hid; rewrite Hid; cbn [negb fst snd].
  - done.
  - destruct (_fetch _ _) as [response|e]; cbn [fst snd]; [|done].
    destruct (ok response); cbn [negb fst snd]; done.
Qed.

(** ** Counting the requests of a run *)

Lemma requests_app p h1 h2 : requests p (h1 ++ h2) = requests p h1 + requests p h2.
Proof. unfold requests. by rewrite List.filter_app, length_app. Qed.

Lemma requests_map {A} p (f : A -> event) (l : list A) (b : bool) :
  (forall x, match f x with Fetch r => p r | _ => false end = b) ->
  requests p (List.map f l) = if b then length l else 0.
Proof.
  intros Hf. unfold requests. induction l as [|x l IH]; simpl; [by destruct b|].
  rewrite (Hf x). destruct b; simpl; by rewrite IH.
Qed.

Lemma requests_rounds p n c runId :
  (forall t r, p (GetRun t r) = false) -> requests p (rounds n c runId) = 0.
Proof.
  intros Hp. induction n as [|n IH]; [done|].
  rewrite rounds_S, requests_app, IH. unfold requests, poll_round. simpl.
  by rewrite Hp.
Qed.

(** X25.  The requests of a [fetch] that returned, by kind: as many
    uploads and as many deletes as there are staged files, one run
    creation, one request for the latest message, and an assistant
    creation and a thread creation exactly when the instance had no
    usable identifier for it, as after [clear()]. *)
Theorem fetch_request_counts `{Platform} (w w' : World) :
  fetch w = (Return tt, w') ->
  requests uploads_file (history w')
    = requests uploads_file (history w) + length (files (client w)) /\
  requests deletes_file (history w')
    = requests deletes_file (history w) + length (files (client w)) /\
  requests creates_run (history w') = requests creates_run (history w) + 1 /\
  requests lists_messages (history w') = requests lists_messages (history w) + 1 /\
  requests creates_assistant (history w')
    = requests creates_assistant (history w)
      + (if truthy (assistantId (client w)) then 0 else 1) /\
  requests creates_thread (history w')
    = requests creates_thread (history w)
      + (if truthy (threadId (client w)) then 0 else 1).
Proof.
  intros (ups & rid & n & r & Hn & Hlen & Hc & Hh)%fetch_returns_trace.
  rewrite Hh. clear Hh Hc.
  rewrite !requests_app, !(requests_rounds _ n (client w') rid) by done.
  rewrite !(requests_map uploads_file upload_event _ true) by done.
  rewrite !(requests_map deletes_file upload_event _ false) by done.
  rewrite !(requests_map creates_run upload_event _ false) by done.
  rewrite !(requests_map lists_messages upload_event _ false) by done.
  rewrite !(requests_map creates_assistant upload_event _ false) by done.
  rewrite !(requests_map creates_thread upload_event _ false) by done.
  rewrite !(requests_map uploads_file delete_event _ false) by done.
  rewrite !(requests_map deletes_file delete_event _ true) by done.
  rewrite !(requests_map creates_run delete_event _ false) by done.
  rewrite !(requests_map lists_messages delete_event _ false) by done.
  rewrite !(requests_map creates_assistant delete_event _ false) by done.
  rewrite !(requests_map creates_thread delete_event _ false) by done.
  rewrite Hlen.
  destruct (truthy (assistantId (client w))), (truthy (threadId (client w)));
    unfold requests; simpl; repeat split; lia.
Qed.

Lemma fetch_request_counts_witness :
  fetch (H := scripted completed_at_once) (start briefed)
  = (Return tt, snd (fetch (H := scripted completed_at_once) (start briefed))) /\
  requests uploads_file
    (history (snd (fetch (H := scripted completed_at_once) (start briefed)))) = 1 /\
  requests deletes_file
    (history (snd (fetch (H := scripted completed_at_once) (start briefed)))) = 1 /\
  requests creates_assistant
    (history (snd (fetch (H := scripted completed_at_once) (start briefed)))) = 1.
Proof.
  assert (Hrun : fetch (H := scripted completed_at_once) (start briefed)
                 = (Return tt,
                    snd (fetch (H := scripted completed_at_once) (start briefed))))
    by (vm_compute; reflexivity).
  split; [exact Hrun|].
  destruct (fetch_request_counts (H := scripted completed_at_once) _ _ Hrun)
    as (Hu & Hd & _ & _ & Ha & _).
  split; [exact Hu|]. split; [exact Hd | exact Ha].
Defined.
